(** * chat_app: sandboxed file tool, conversation store and streaming orchestrator

    A shallow embedding of [src/chat_app/chat_app.py] and [src/chat_app/cli.py].
    Python values are modelled as the interpreter has them: a [str] is a sequence
    of Unicode code points, an exception is a class with a message, and a
    function with side effects is a state transformer over the process state
    that either returns a value or raises. *)

From Stdlib Require Import List String Ascii NArith ZArith Bool Arith Lia Sorted.
From Stdlib Require Import Decimal DecimalString.
Import ListNotations.

Set Implicit Arguments.

(** ** Python strings *)

Module Py.

(** A Python [str] is a sequence of code points: [len] counts code points and
    a slice [s[:n]] keeps the first [n] of them. *)
Definition codepoint := N.
Definition str := list codepoint.

(** An ASCII literal of the source text. *)
Definition lit (s : string) : str := map N_of_ascii (list_ascii_of_string s).

(** [str(n)] and the [%d] / [{n}] renderings of a non-negative integer. *)
Definition str_of_nat (n : nat) : str := lit (NilEmpty.string_of_uint (Nat.to_uint n)).

(** [len(s)] *)
Definition len (s : str) : nat := List.length s.

(** [s[:n]] *)
Definition slice_to (n : nat) (s : str) : str := firstn n s.

Fixpoint str_eqb (a b : str) : bool :=
  match a, b with
  | [], [] => true
  | x :: a', y :: b' => N.eqb x y && str_eqb a' b'
  | _, _ => false
  end.

Fixpoint startswith (p s : str) : bool :=
  match p, s with
  | [], _ => true
  | x :: p', y :: s' => N.eqb x y && startswith p' s'
  | _ :: _, [] => false
  end.

(** [sub in s] *)
Fixpoint contains (sub s : str) : bool :=
  startswith sub s ||
  match s with
  | [] => false
  | _ :: s' => contains sub s'
  end.

(** Number of bytes of one code point, and of a string, in UTF-8. *)
Definition utf8_width (c : codepoint) : nat :=
  if (c <? 128)%N then 1
  else if (c <? 2048)%N then 2
  else if (c <? 65536)%N then 3
  else 4.

Definition utf8_len (s : str) : nat := list_sum (map utf8_width s).

(** [bytes] objects. *)
Definition bytes := list Byte.byte.

End Py.
Export Py.

(** ** Exceptions *)

Module Exc.

(** The exception classes that the two source files name or that the calls
    they make are documented to raise, with Python's class hierarchy. *)
Inductive exc_class : Set :=
  | BaseException
  | GeneratorExit
  | PyException
  | OSError
  | PermissionError
  | FileNotFoundError
  | IsADirectoryError
  | NotADirectoryError
  | RuntimeError
  | ValueError
  | ValidationError
  | LookupError
  | IndexError
  | AgentRunError
  | UnexpectedModelBehavior
  | AlreadyApplied.

Scheme Equality for exc_class.

Definition base (c : exc_class) : option exc_class :=
  match c with
  | BaseException => None
  | GeneratorExit => Some BaseException
  | PyException => Some BaseException
  | OSError => Some PyException
  | PermissionError => Some OSError
  | FileNotFoundError => Some OSError
  | IsADirectoryError => Some OSError
  | NotADirectoryError => Some OSError
  | RuntimeError => Some PyException
  | ValueError => Some PyException
  | ValidationError => Some ValueError
  | LookupError => Some PyException
  | IndexError => Some LookupError
  | AgentRunError => Some RuntimeError
  | UnexpectedModelBehavior => Some AgentRunError
  | AlreadyApplied => Some PyException
  end.

(** The class and its ancestors, nearest first. *)
Fixpoint mro (fuel : nat) (c : exc_class) : list exc_class :=
  c :: match fuel with
       | 0 => []
       | S fuel' => match base c with
                    | Some p => mro fuel' p
                    | None => []
                    end
       end.

Definition issubclass (c d : exc_class) : bool :=
  existsb (exc_class_beq d) (mro 5 c).

Record exc : Type := mk_exc { e_class : exc_class; e_msg : str }.

(** [isinstance(e, cls)], the test an [except cls:] clause performs. *)
Definition isinstance (e : exc) (cls : exc_class) : bool :=
  issubclass (e_class e) cls.

End Exc.
Export Exc.

(** ** Computations that return or raise over a state *)

Module Run.

Inductive Res (A : Type) : Type :=
  | Ret (a : A)
  | Raise (e : exc).
Arguments Ret {A} a.
Arguments Raise {A} e.

Definition M (S A : Type) : Type := S -> Res A * S.

Definition ret {S A} (a : A) : M S A := fun s => (Ret a, s).

Definition raise {S A} (e : exc) : M S A := fun s => (Raise e, s).

Definition bind {S A B} (m : M S A) (k : A -> M S B) : M S B :=
  fun s =>
    match m s with
    | (Ret a, s') => k a s'
    | (Raise e, s') => (Raise e, s')
    end.

(** A pure call that may raise. *)
Definition lift_res {S A} (r : Res A) : M S A := fun s => (r, s).

Definition gets {S A} (f : S -> A) : M S A := fun s => (Ret (f s), s).

Definition modify {S} (f : S -> S) : M S unit := fun s => (Ret tt, f s).

(** [for x in xs: body(x)] *)
Fixpoint for_each {S A} (xs : list A) (body : A -> M S unit) : M S unit :=
  match xs with
  | [] => ret tt
  | x :: xs' => bind (body x) (fun _ => for_each xs' body)
  end.

(** [try: body  except C1: h1 ... except Cn: hn]: the first clause whose class
    the exception is an instance of handles it; with none, it propagates. *)
Fixpoint dispatch {S A} (handlers : list (exc_class * (exc -> M S A))) (e : exc) : M S A :=
  match handlers with
  | [] => raise e
  | (cls, h) :: rest => if isinstance e cls then h e else dispatch rest e
  end.

Definition try_except {S A} (body : M S A) (handlers : list (exc_class * (exc -> M S A))) : M S A :=
  fun s =>
    match body s with
    | (Ret a, s') => (Ret a, s')
    | (Raise e, s') => dispatch handlers e s'
    end.

End Run.
Export Run.

Declare Scope py_scope.
Delimit Scope py_scope with py.
Notation "x <- m ;; k" := (bind m (fun x => k))
  (at level 61, m at next level, right associativity) : py_scope.
Notation "m ;; k" := (bind m (fun _ => k))
  (at level 61, right associativity) : py_scope.
Open Scope py_scope.
Open Scope list_scope.

(** ** Data model *)

Module Model.

(** [nono_py.AccessMode] and the entries of a [nono_py.CapabilitySet]. *)
Inductive AccessMode : Set := READ | READ_WRITE.

Definition CapabilitySet := list (str * AccessMode).

(** [ChatMessage]: the record sent to the frontend. *)
Inductive Role : Set := user | model | tool.

Record ChatMessage : Type := mk_chat {
  role : Role;
  timestamp : str;
  content : str
}.

(** A [datetime] value; [isoformat] of the environment renders it. *)
Definition datetime := nat.

(** [pydantic_ai.messages]: the parts of a message, and [ModelMessage], the
    union of [ModelRequest] and [ModelResponse]. The content of a
    [UserPromptPart] is a [str] or a sequence of content items. *)
Inductive UserContent : Type :=
  | ContentStr (s : str)
  | ContentSeq (items : list str).

Inductive Part : Type :=
  | SystemPromptPart (text : str) (ts : datetime)
  | UserPromptPart (c : UserContent) (ts : datetime)
  | ToolReturnPart (tool_name : str) (result : str) (ts : datetime)
  | RetryPromptPart (text : str) (ts : datetime)
  | TextPart (text : str)
  | ToolCallPart (tool_name : str) (args : str).

Inductive ModelMessage : Type :=
  | ModelRequest (parts : list Part)
  | ModelResponse (parts : list Part) (ts : datetime).

Definition parts_of (m : ModelMessage) : list Part :=
  match m with
  | ModelRequest ps => ps
  | ModelResponse ps _ => ps
  end.

(** The [messages] table: rows [(id, message_list)] as they were inserted,
    and the counter that [AUTOINCREMENT] keeps of the largest id ever used. *)
Record Table : Type := mk_table {
  rows : list (Z * bytes);
  sequence : Z
}.

Definition empty_table : Table := {| rows := []; sequence := 0 |}.

(** Records handed to the [chat_app.sandbox] logger. *)
Inductive Level : Set := INFO | WARNING.

Record LogRecord : Type := mk_log { level : Level; message : str }.

(** What the agent loop does during one [run_stream]: it calls the
    [read_file] tool and it hands text to [stream_text] (the cumulative text
    and the response timestamp), in some order; then it either completes, with
    [new_messages_json()] available, or raises. *)
Inductive AgentStep : Type :=
  | ToolCall (path : str)
  | TextFragment (text : str) (ts : datetime).

Inductive AgentEnd : Type :=
  | AgentReturns (new_messages_json : bytes)
  | AgentRaises (e : exc).

Record AgentRun : Type := mk_run {
  steps : list AgentStep;
  ending : AgentEnd
}.

(** Requests that reach the application once uvicorn serves it. A POST
    carries the prompt; the agent's run and the number of chunks the client
    reads before it disconnects ([None]: it reads to the end) are the
    environment's choice. *)
Inductive Request : Type :=
  | GetIndex
  | GetMainTs
  | GetChat
  | PostChat (prompt : str) (run : AgentRun) (demand : option nat).

(** History of the process, kept for stating temporal properties: which
    externally visible calls were made, in order. *)
Inductive Action : Type :=
  | ActApply (caps : CapabilitySet)
  | ActEcho (line : str)
  | ActUvicornRun
  | ActToolEvent (evt : ChatMessage)
  | ActFragment (text : str) (ts : datetime)
  | ActYield (chunk : ChatMessage)
  | ActAddMessages (blob : bytes).

(** The response stream of the request being served: the chunks delivered so
    far (each is [json.dumps] of the record, UTF-8 encoded, plus a newline) and
    how many more the client will read. *)
Record Conn : Type := mk_conn {
  sent : list ChatMessage;
  demand : option nat
}.

(** The state of the process. *)
Record World : Type := mk_world {
  w_sandbox : option CapabilitySet;   (* what the kernel enforces; None: nothing applied *)
  w_ticks : nat;                      (* calls of datetime.now so far *)
  w_log : list LogRecord;
  _tool_events : list ChatMessage;    (* the module-level buffer *)
  w_db : Table;
  w_conn : Conn;
  w_trace : list Action
}.

Definition set_sandbox (c : option CapabilitySet) (w : World) : World :=
  mk_world c (w_ticks w) (w_log w) (_tool_events w) (w_db w) (w_conn w) (w_trace w).
Definition set_ticks (n : nat) (w : World) : World :=
  mk_world (w_sandbox w) n (w_log w) (_tool_events w) (w_db w) (w_conn w) (w_trace w).
Definition set_log (l : list LogRecord) (w : World) : World :=
  mk_world (w_sandbox w) (w_ticks w) l (_tool_events w) (w_db w) (w_conn w) (w_trace w).
Definition set_tool_events (b : list ChatMessage) (w : World) : World :=
  mk_world (w_sandbox w) (w_ticks w) (w_log w) b (w_db w) (w_conn w) (w_trace w).
Definition set_db (d : Table) (w : World) : World :=
  mk_world (w_sandbox w) (w_ticks w) (w_log w) (_tool_events w) d (w_conn w) (w_trace w).
Definition set_conn (c : Conn) (w : World) : World :=
  mk_world (w_sandbox w) (w_ticks w) (w_log w) (_tool_events w) (w_db w) c (w_trace w).
Definition record (a : Action) (w : World) : World :=
  mk_world (w_sandbox w) (w_ticks w) (w_log w) (_tool_events w) (w_db w) (w_conn w)
           (w_trace w ++ [a]).

(** A process that has just started: nothing applied, nothing logged, and
    the database file as it was left on disk. *)
Definition fresh_process (db : Table) : World :=
  {| w_sandbox := None; w_ticks := 0; w_log := []; _tool_events := [];
     w_db := db; w_conn := {| sent := []; demand := None |}; w_trace := [] |}.

(** What the code calls but does not define: the operating system and the
    Python library under the sandbox the kernel currently enforces, the clock,
    pydantic's (de)serialisation, and the paths the CLI computes at start. *)
Record Env : Type := mk_env {
  expanduser : str -> Res str;                             (* Path(p).expanduser() *)
  resolve : option CapabilitySet -> str -> Res str;        (* .resolve() *)
  read_text : option CapabilitySet -> str -> Res str;      (* .read_text(errors="replace") *)
  clock : nat -> datetime;                                 (* the n-th datetime.now(tz=utc) *)
  isoformat : datetime -> str;
  validate_json : bytes -> Res (list ModelMessage);        (* ModelMessagesTypeAdapter *)
  repr_message : ModelMessage -> str;                      (* f"{m}" *)
  APP_DIR : str;
  python_prefix : str;                                     (* dirname(dirname(os.__file__)) *)
  site_packages : list str;                                (* site.getsitepackages() *)
  executable_prefix : str;                                 (* dirname(dirname(sys.executable)) *)
  cwd : str                                                (* os.getcwd() *)
}.

End Model.
Export Model.

(** ** The program *)

Section Program.

Variable E : Env.

(** *** Primitives of the runtime *)

(** [datetime.now(tz=timezone.utc)] *)
Definition now : M World datetime :=
  fun w => (Ret (clock E (w_ticks w)), set_ticks (S (w_ticks w)) w).

(** [log.info(...)] and [log.warning(...)], with the message formatted. *)
Definition log_info (msg : str) : M World unit :=
  modify (fun w => set_log (w_log w ++ [mk_log INFO msg]) w).

Definition log_warning (msg : str) : M World unit :=
  modify (fun w => set_log (w_log w ++ [mk_log WARNING msg]) w).

(** [_tool_events.append(evt)] *)
Definition tool_events_append (evt : ChatMessage) : M World unit :=
  modify (fun w => record (ActToolEvent evt) (set_tool_events (_tool_events w ++ [evt]) w)).

(** [_tool_events.clear()] *)
Definition tool_events_clear : M World unit := modify (set_tool_events []).

(** The three filesystem calls of [read_file]. Resolving and reading go
    through the kernel, which answers under the sandbox in force. *)
Definition path_expanduser (p : str) : M World str := lift_res (expanduser E p).

Definition path_resolve (p : str) : M World str :=
  fun w => (resolve E (w_sandbox w) p, w).

Definition path_read_text (p : str) : M World str :=
  fun w => (read_text E (w_sandbox w) p, w).

(** *** chat_app.py: [read_file] *)

Definition allowed_event_text (path : str) (n : nat) : str :=
  lit "read_file(" ++ path ++ lit ") -- ALLOWED (" ++ str_of_nat n ++ lit " bytes read)".

Definition blocked_event_text (path : str) : str :=
  lit "read_file(" ++ path ++ lit ") -- BLOCKED by nono sandbox (permission denied)".

Definition notfound_event_text (path : str) : str :=
  lit "read_file(" ++ path ++ lit ") -- file not found".

Definition blocked_result (path : str) : str :=
  lit "BLOCKED by nono sandbox: permission denied reading " ++ path.

Definition notfound_result (path : str) : str :=
  lit "File not found: " ++ path.

Definition directory_result (path : str) : str :=
  lit "Path is a directory, not a file: " ++ path.

Definition oserror_result (path : str) (e : exc) : str :=
  lit "OS error reading " ++ path ++ lit ": " ++ e_msg e.

Definition read_file (path : str) : M World str :=
  try_except
    (expanded <- path_expanduser path ;;
     target <- path_resolve expanded ;;
     text <- path_read_text target ;;
     let content := slice_to 4096 text in
     log_info (lit "ALLOWED  read_file(" ++ path ++ lit ") -> "
               ++ str_of_nat (len content) ++ lit " bytes") ;;
     ts <- now ;;
     tool_events_append
       {| role := tool; timestamp := isoformat E ts;
          content := allowed_event_text path (len content) |} ;;
     ret content)
    [ (PermissionError, fun _ =>
         log_warning (lit "BLOCKED  read_file(" ++ path
                      ++ lit ") -> PermissionError (sandbox deny)") ;;
         ts <- now ;;
         tool_events_append
           {| role := tool; timestamp := isoformat E ts;
              content := blocked_event_text path |} ;;
         ret (blocked_result path));
      (FileNotFoundError, fun _ =>
         log_info (lit "NOTFOUND read_file(" ++ path ++ lit ") -> FileNotFoundError") ;;
         ts <- now ;;
         tool_events_append
           {| role := tool; timestamp := isoformat E ts;
              content := notfound_event_text path |} ;;
         ret (notfound_result path));
      (IsADirectoryError, fun _ => ret (directory_result path));
      (OSError, fun e => ret (oserror_result path e)) ].

(** *** chat_app.py: [to_chat_message] *)

Definition index_error : exc :=
  mk_exc IndexError (lit "list index out of range").

Definition unexpected_message (m : ModelMessage) : exc :=
  mk_exc UnexpectedModelBehavior
         (lit "Unexpected message type for chat app: " ++ repr_message E m).

Definition to_chat_message (m : ModelMessage) : Res ChatMessage :=
  match parts_of m with
  | [] => Raise index_error                        (* m.parts[0] *)
  | first_part :: _ =>
      match m with
      | ModelRequest _ =>
          match first_part with
          | UserPromptPart (ContentStr text) ts =>
              Ret {| role := user; timestamp := isoformat E ts; content := text |}
          | _ => Raise (unexpected_message m)
          end
      | ModelResponse _ ts =>
          match first_part with
          | TextPart text =>
              Ret {| role := model; timestamp := isoformat E ts; content := text |}
          | _ => Raise (unexpected_message m)
          end
      end
  end.

(** *** chat_app.py: [Database] *)

(** [INSERT INTO messages (message_list) VALUES (?)] on a table whose key is
    [INTEGER PRIMARY KEY AUTOINCREMENT]: the new id is one more than the
    largest id ever used. *)
Definition largest_id (t : Table) : Z :=
  fold_right Z.max (sequence t) (map fst (rows t)).

Definition insert_row (blob : bytes) (t : Table) : Table :=
  let id := (largest_id t + 1)%Z in
  {| rows := rows t ++ [(id, blob)]; sequence := id |}.

(** [SELECT message_list FROM messages ORDER BY id] *)
Fixpoint insert_by_id (r : Z * bytes) (sorted : list (Z * bytes)) : list (Z * bytes) :=
  match sorted with
  | [] => [r]
  | r' :: rest => if (fst r <? fst r')%Z then r :: sorted else r' :: insert_by_id r rest
  end.

Definition order_by_id (rs : list (Z * bytes)) : list (Z * bytes) :=
  fold_right insert_by_id [] rs.

Definition select_message_lists (t : Table) : list bytes :=
  map snd (order_by_id (rows t)).

Definition add_messages (messages : bytes) : M World unit :=
  modify (fun w => record (ActAddMessages messages)
                          (set_db (insert_row messages (w_db w)) w)).

(** [for row in rows: messages.extend(validate_json(row[0]))] *)
Fixpoint extend_from (blobs : list bytes) (messages : list ModelMessage)
  : Res (list ModelMessage) :=
  match blobs with
  | [] => Ret messages
  | blob :: rest =>
      match validate_json E blob with
      | Ret ms => extend_from rest (messages ++ ms)
      | Raise e => Raise e
      end
  end.

Definition get_messages : M World (list ModelMessage) :=
  fetched <- gets (fun w => select_message_lists (w_db w)) ;;
  lift_res (extend_from fetched []).

(** *** chat_app.py: [get_chat] *)

(** The generator expression given to [join]: it stops at the first message
    that [to_chat_message] rejects. *)
Fixpoint chat_lines (msgs : list ModelMessage) : Res (list ChatMessage) :=
  match msgs with
  | [] => Ret []
  | m :: rest =>
      match to_chat_message m with
      | Raise e => Raise e
      | Ret line =>
          match chat_lines rest with
          | Raise e => Raise e
          | Ret lines => Ret (line :: lines)
          end
      end
  end.

Definition get_chat : M World (list ChatMessage) :=
  msgs <- get_messages ;;
  lift_res (chat_lines msgs).

(** *** chat_app.py: [post_chat] and its generator [stream_messages] *)

Definition generator_exit : exc := mk_exc GeneratorExit [].

Definition deliver (chunk : ChatMessage) (left : option nat) (w : World) : World :=
  record (ActYield chunk)
         (set_conn {| sent := sent (w_conn w) ++ [chunk]; demand := left |} w).

(** [yield chunk]: the chunk goes to the client; if that was the last one the
    client reads, the generator is not resumed but closed at this point. *)
Definition yield_ (chunk : ChatMessage) : M World unit :=
  fun w =>
    match demand (w_conn w) with
    | None => (Ret tt, deliver chunk None w)
    | Some 0 => (Raise generator_exit, w)
    | Some 1 => (Raise generator_exit, deliver chunk (Some 0) w)
    | Some (S k) => (Ret tt, deliver chunk (Some k) w)
    end.

(** [for evt in _tool_events: yield ...] followed by [_tool_events.clear()] *)
Definition flush_tool_events : M World unit :=
  pending <- gets _tool_events ;;
  for_each pending yield_ ;;
  tool_events_clear.

(** The agent loop as the body of [stream_messages] meets it. A tool call
    runs [read_file]; an exception of the tool ends the run. A text fragment
    runs one iteration of the [async for]. *)
Fixpoint agent_loop (todo : list AgentStep) : M World unit :=
  match todo with
  | [] => ret tt
  | ToolCall path :: rest =>
      _ <- read_file path ;;
      agent_loop rest
  | TextFragment text ts :: rest =>
      modify (record (ActFragment text ts)) ;;
      flush_tool_events ;;
      m <- lift_res (to_chat_message (ModelResponse [TextPart text] ts)) ;;
      yield_ m ;;
      agent_loop rest
  end.

Definition stream_messages (prompt : str) (run : AgentRun) : M World unit :=
  ts <- now ;;
  yield_ {| role := user; timestamp := isoformat E ts; content := prompt |} ;;
  _ <- get_messages ;;
  tool_events_clear ;;
  agent_loop (steps run) ;;
  match ending run with
  | AgentRaises e => raise e
  | AgentReturns new_messages_json =>
      flush_tool_events ;;
      add_messages new_messages_json
  end.

(** The streaming response: the generator runs as far as the client reads. *)
Definition post_chat (prompt : str) (run : AgentRun) (d : option nat) : M World unit :=
  fun w =>
    let w0 := set_conn {| sent := []; demand := d |} w in
    match d with
    | Some 0 => (Raise generator_exit, w0)
    | _ => stream_messages prompt run w0
    end.

(** *** cli.py *)

(** Modelled from the spec: the package [nono_py] is not part of the
    sources. [allow_path] registers one entry in the set under construction;
    [apply] commits the set to the enforcement layer once per process, and a
    second call fails with [AlreadyApplied]. *)
Definition allow_path (caps : CapabilitySet) (p : str) (m : AccessMode) : CapabilitySet :=
  caps ++ [(p, m)].

Definition already_applied : exc := mk_exc AlreadyApplied [].

(** Modelled from the spec: [nono_py.apply], which is not part of the
    sources. The first call puts the set in force for the rest of the
    process; every later call raises [AlreadyApplied] and changes nothing. *)
Definition nono_apply (caps : CapabilitySet) : M World unit :=
  fun w =>
    match w_sandbox w with
    | None => (Ret tt, record (ActApply caps) (set_sandbox (Some caps) w))
    | Some _ => (Raise already_applied, w)
    end.

Definition sandbox_caps : CapabilitySet :=
  let caps := [] in
  let caps := allow_path caps (APP_DIR E) READ_WRITE in
  let caps := allow_path caps (lit "/tmp") READ_WRITE in
  let caps := allow_path caps (python_prefix E) READ in
  let caps := fold_left (fun caps sp => allow_path caps sp READ) (site_packages E) caps in
  let caps := allow_path caps (executable_prefix E) READ in
  let caps := allow_path caps (cwd E) READ in
  let caps := allow_path caps (lit "/etc") READ in
  let caps := allow_path caps (lit "/var/run") READ_WRITE in
  caps.

Definition _apply_sandbox : M World unit := nono_apply sandbox_caps.

(** One request handled by the application. An exception of a handler ends
    that request only; the server goes on. *)
Definition handle (r : Request) : M World unit :=
  match r with
  | GetIndex => ret tt
  | GetMainTs => ret tt
  | GetChat => _ <- get_chat ;; ret tt
  | PostChat prompt run d => post_chat prompt run d
  end.

Definition serve_request (r : Request) : M World unit :=
  fun w => (Ret tt, snd (handle r w)).

(** [uvicorn.run("chat_app.chat_app:app", ...)], serving [traffic]. *)
Definition uvicorn_run (traffic : list Request) : M World unit :=
  modify (record ActUvicornRun) ;;
  for_each traffic serve_request.

Definition serve (host : str) (port : nat) (reload : bool) (workers : nat)
           (no_sandbox : bool) (traffic : list Request) : M World unit :=
  (if negb no_sandbox then _apply_sandbox else ret tt) ;;
  modify (record (ActEcho (lit "Starting server at http://" ++ host ++ lit ":"
                           ++ str_of_nat port))) ;;
  uvicorn_run traffic.

End Program.

(** ** Derived notions used in the statements *)

Section Notions.

Variable E : Env.

(** The filesystem part of [read_file]'s [try] body: what expanding,
    resolving and reading [path] gives in the world [w]. *)
Definition file_access (path : str) (w : World) : Res str :=
  fst ((expanded <- path_expanduser E path ;;
        target <- path_resolve E expanded ;;
        path_read_text E target) w).

(** The world after one branch of [read_file] has logged [msg] at [lv] and
    buffered a tool event with the given text. *)
Definition tool_event_at (w : World) (text : str) : ChatMessage :=
  {| role := tool; timestamp := isoformat E (clock E (w_ticks w)); content := text |}.

Definition reported (lv : Level) (msg text : str) (w : World) : World :=
  record (ActToolEvent (tool_event_at w text))
    (set_tool_events (_tool_events w ++ [tool_event_at w text])
       (set_ticks (S (w_ticks w))
          (set_log (w_log w ++ [mk_log lv msg]) w))).

Definition allowed_log (path : str) (n : nat) : str :=
  lit "ALLOWED  read_file(" ++ path ++ lit ") -> " ++ str_of_nat n ++ lit " bytes".

Definition blocked_log (path : str) : str :=
  lit "BLOCKED  read_file(" ++ path ++ lit ") -> PermissionError (sandbox deny)".

Definition notfound_log (path : str) : str :=
  lit "NOTFOUND read_file(" ++ path ++ lit ") -> FileNotFoundError".

(** The whole behaviour of [read_file] as a function of what the
    filesystem answered. *)
Definition read_file_branches (path : str) (w : World) : Res str * World :=
  match file_access path w with
  | Ret text =>
      let content := slice_to 4096 text in
      (Ret content,
       reported INFO (allowed_log path (len content))
                (allowed_event_text path (len content)) w)
  | Raise e =>
      if isinstance e PermissionError then
        (Ret (blocked_result path),
         reported WARNING (blocked_log path) (blocked_event_text path) w)
      else if isinstance e FileNotFoundError then
        (Ret (notfound_result path),
         reported INFO (notfound_log path) (notfound_event_text path) w)
      else if isinstance e IsADirectoryError then (Ret (directory_result path), w)
      else if isinstance e OSError then (Ret (oserror_result path e), w)
      else (Raise e, w)
  end.

(** The record a text fragment is sent as. *)
Definition model_message (text : str) (ts : datetime) : ChatMessage :=
  {| role := model; timestamp := isoformat E ts; content := text |}.

(** The chunks yielded, the events and fragments produced, and the
    fragments alone, read off a stretch of the history. *)
Definition emitted (tr : list Action) : list ChatMessage :=
  flat_map (fun a => match a with ActYield c => [c] | _ => [] end) tr.

Definition produced (tr : list Action) : list ChatMessage :=
  flat_map (fun a => match a with
                     | ActToolEvent evt => [evt]
                     | ActFragment text ts => [model_message text ts]
                     | _ => []
                     end) tr.

Definition fragments (tr : list Action) : list (str * datetime) :=
  flat_map (fun a => match a with ActFragment text ts => [(text, ts)] | _ => [] end) tr.

End Notions.

Definition run_fragments (todo : list AgentStep) : list (str * datetime) :=
  flat_map (fun s => match s with TextFragment text ts => [(text, ts)] | _ => [] end) todo.




(** The store after [add_messages] was called with each blob in turn. *)
Definition appended (blobs : list bytes) (w : World) : World :=
  snd (for_each blobs add_messages w).

Definition is_apply (a : Action) : bool :=
  match a with ActApply _ => true | _ => false end.


(** Actions of a turn in progress: yields, tool events and fragments. *)
Definition in_turn (a : Action) : bool :=
  match a with
  | ActYield _ | ActToolEvent _ | ActFragment _ _ => true
  | _ => false
  end.


(** ** Scenarios *)

Module Scenario.

(** A small machine: a few files, a kernel that denies every path outside
    the directories of the capability set in force, and no user [ghost]. *)
Definition euro : codepoint := 8364%N.

Definition files : list (str * Res str) :=
  [ (lit "/sandbox/notes.txt", Ret (lit "hello"));
    (lit "/sandbox/price.txt", Ret (lit "ab" ++ [euro]));
    (lit "/sandbox/euros.txt", Ret (repeat euro 5000));
    (lit "/sandbox/decoy.txt",
       Ret (lit "BLOCKED by nono sandbox: permission denied reading /sandbox/decoy.txt"));
    (lit "/etc/passwd", Ret (lit "root:x:0:0"));
    (lit "/sandbox", Raise (mk_exc IsADirectoryError (lit "[Errno 21] Is a directory: '/sandbox'")));
    (lit "/sandbox/notes.txt/x",
       Raise (mk_exc NotADirectoryError
                (lit "[Errno 20] Not a directory: '/sandbox/notes.txt/x'"))) ].

Fixpoint lookup (p : str) (fs : list (str * Res str)) : Res str :=
  match fs with
  | [] => Raise (mk_exc FileNotFoundError (lit "[Errno 2] No such file or directory"))
  | (q, r) :: rest => if str_eqb p q then r else lookup p rest
  end.

Definition permitted (sandbox : option CapabilitySet) (p : str) : bool :=
  match sandbox with
  | None => true
  | Some caps => existsb (fun entry => startswith (fst entry) p) caps
  end.

Definition kernel_read (sandbox : option CapabilitySet) (p : str) : Res str :=
  if permitted sandbox p then lookup p files
  else Raise (mk_exc PermissionError (lit "[Errno 13] Permission denied")).

Definition home_of (p : str) : Res str :=
  if startswith (lit "~ghost") p
  then Raise (mk_exc RuntimeError (lit "Could not determine home directory."))
  else Ret p.

Definition user_turn : list ModelMessage :=
  [ ModelRequest [UserPromptPart (ContentStr (lit "hi")) 1];
    ModelResponse [TextPart (lit "hello")] 2 ].

Definition machine : Env :=
  {| expanduser := home_of;
     resolve := fun _ p => Ret p;
     read_text := kernel_read;
     clock := fun n => n;
     isoformat := str_of_nat;
     validate_json := fun _ => Ret user_turn;
     repr_message := fun _ => lit "<message>";
     APP_DIR := lit "/app/src/chat_app";
     python_prefix := lit "/usr/lib/python3.12";
     site_packages := [lit "/app/.venv/lib/python3.12/site-packages"];
     executable_prefix := lit "/app/.venv";
     cwd := lit "/app" |}.

(** A process in which only [/sandbox] is allowed. *)
Definition confined : World :=
  set_sandbox (Some [(lit "/sandbox", READ)]) (fresh_process empty_table).

Definition unconfined : World := fresh_process empty_table.

End Scenario.

(** ** Assertions about a turn in progress *)

(** A computation started in a world that satisfies [P] either returns [a]
    in a world that satisfies [Q a], or raises [e] in one that satisfies
    [X e]. *)
Definition triple {A} (P : World -> Prop) (m : M World A)
           (Q : A -> World -> Prop) (X : exc -> World -> Prop) : Prop :=
  forall w, P w ->
    match m w with
    | (Ret a, w') => Q a w'
    | (Raise e, w') => X e w'
    end.

Section Turn.

Variable E : Env.
Variable start : World.       (* the world in which the generator starts *)
Variable d : option nat.      (* how many chunks the client reads *)
Variable u : ChatMessage.     (* the user event of the turn *)

(** The client is still reading. *)
Definition reading (c : Conn) : Prop :=
  match demand c with
  | None => d = None
  | Some k => 0 < k /\ d = Some (List.length (sent c) + k)
  end.

(** [seg] is the history of the turn so far: only yields, tool events and
    fragments; the sandbox and the table are as at the start; the client got
    what was yielded. *)
Definition turn_frame (seg : list Action) (w : World) : Prop :=
  w_trace w = w_trace start ++ seg /\
  forallb in_turn seg = true /\
  w_sandbox w = w_sandbox start /\
  w_db w = w_db start /\
  sent (w_conn w) = emitted seg.

(** The turn runs: once [todo] is yielded, what was emitted is the user
    event followed by everything produced, in the order of production; [fr]
    are the fragments received so far. *)
Definition running (todo : list ChatMessage) (fr : list (str * datetime)) (w : World) : Prop :=
  exists seg,
    turn_frame seg w /\ reading (w_conn w) /\
    emitted seg ++ todo = u :: produced E seg /\
    fragments seg = fr.

(** The turn ended early, by an exception or because the client left. *)
Definition stopped (w : World) : Prop :=
  exists seg rest,
    turn_frame seg w /\ emitted seg ++ rest = u :: produced E seg.

(** The turn ran to its end and stored [blob]. *)
Definition completed (all : list AgentStep) (blob : bytes) (w : World) : Prop :=
  exists seg,
    w_trace w = w_trace start ++ seg ++ [ActAddMessages blob] /\
    forallb in_turn seg = true /\
    w_sandbox w = w_sandbox start /\
    w_db w = insert_row blob (w_db start) /\
    sent (w_conn w) = emitted seg /\
    reading (w_conn w) /\
    emitted seg = u :: produced E seg /\
    fragments seg = run_fragments all.

End Turn.

(** The user event of a turn that starts in [w], and the world in which
    its generator starts: a new response stream to a client that reads [d]
    chunks. *)
Definition user_event (E : Env) (prompt : str) (w : World) : ChatMessage :=
  {| role := user; timestamp := isoformat E (clock E (w_ticks w)); content := prompt |}.

Definition connected (d : option nat) (w : World) : World :=
  set_conn {| sent := []; demand := d |} w.

(** The line [serve] prints before it starts the server. *)
Definition banner (host : str) (port : nat) : str :=
  lit "Starting server at http://" ++ host ++ lit ":" ++ str_of_nat port.

(** What [uvicorn.run] and the requests it serves leave alone: the sandbox
    in force, and the history gains no [apply]. *)
Definition confined_step (w w' : World) : Prop :=
  w_sandbox w' = w_sandbox w /\
  exists seg, w_trace w' = w_trace w ++ seg /\ existsb is_apply seg = false.

(** ** The database file, and the CLI command that clears it *)

(** The file [.chat_app_messages.sqlite] as the two programs meet it: absent,
    present without a [messages] table, or holding the table. *)
Inductive DbFile : Type :=
  | NoFile
  | NoTable
  | HasTable (t : Table).

(** chat_app.py, [Database._connect]: [sqlite3.connect] creates a missing
    file, and [CREATE TABLE IF NOT EXISTS] a missing table. *)
Definition _connect (f : DbFile) : DbFile :=
  match f with
  | HasTable t => HasTable t
  | NoFile | NoTable => HasTable empty_table
  end.

(** [DELETE FROM messages]: the rows go, the [AUTOINCREMENT] counter stays. *)
Definition delete_all (t : Table) : Table :=
  {| rows := []; sequence := sequence t |}.

(** How [clear_history] ends: the confirmation was declined, a line was
    printed, or sqlite raised. *)
Inductive ClearOutcome : Type :=
  | Aborted
  | Echoed (line : str)
  | SqliteError (msg : str).

(** cli.py, [clear_history], on the file [db_path] names; [confirmed] is the
    answer to the confirmation prompt. *)
Definition clear_history (confirmed : bool) (f : DbFile) : ClearOutcome * DbFile :=
  if negb confirmed then (Aborted, f)
  else match f with
       | NoFile => (Echoed (lit "No chat history found."), NoFile)
       | NoTable => (SqliteError (lit "no such table: messages"), NoTable)
       | HasTable t => (Echoed (lit "Chat history cleared."), HasTable (delete_all t))
       end.



(** Text made of ASCII characters only. *)
Definition is_ascii (s : str) : bool := forallb (fun c => (c <? 128)%N) s.

(** A machine whose stored history no longer deserialises. *)
Module Corrupt.

Definition bad_json : exc := mk_exc ValidationError (lit "Invalid JSON: EOF while parsing").

Definition machine : Env :=
  {| expanduser := Scenario.home_of;
     resolve := fun _ p => Ret p;
     read_text := Scenario.kernel_read;
     clock := fun n => n;
     isoformat := str_of_nat;
     validate_json := fun _ => Raise bad_json;
     repr_message := fun _ => lit "<message>";
     APP_DIR := lit "/app/src/chat_app";
     python_prefix := lit "/usr/lib/python3.12";
     site_packages := [lit "/app/.venv/lib/python3.12/site-packages"];
     executable_prefix := lit "/app/.venv";
     cwd := lit "/app" |}.


End Corrupt.

(** ** Notions for further properties *)

(** Two worlds that differ at most in the buffer. *)
Definition same_but_buffer (w1 w2 : World) : Prop :=
  set_tool_events [] w1 = set_tool_events [] w2.

(** [m] neither reads nor changes the buffer. *)
Definition buffer_blind {A} (m : M World A) : Prop :=
  forall w1 w2, same_but_buffer w1 w2 ->
    fst (m w1) = fst (m w2) /\ same_but_buffer (snd (m w1)) (snd (m w2)).

(** [m] does not read the buffer and, when it returns, has reset it. *)
Definition buffer_reset {A} (m : M World A) : Prop :=
  forall w1 w2, same_but_buffer w1 w2 ->
    fst (m w1) = fst (m w2) /\
    same_but_buffer (snd (m w1)) (snd (m w2)) /\
    (forall a, fst (m w1) = Ret a -> snd (m w1) = snd (m w2)).

(** The paths a capability set lets the process write to. *)
Definition writable (caps : CapabilitySet) : list str :=
  map fst (filter (fun entry => match snd entry with READ_WRITE => true | READ => false end) caps).


(** * Properties *)

(** ** Strings *)

Lemma startswith_app (p s : str) : startswith p (p ++ s) = true.
Proof.
  induction p as [|c p IH]; simpl.
  - reflexivity.
  - now rewrite N.eqb_refl, IH.
Qed.





Lemma len_slice_to (n : nat) (s : str) : len (slice_to n s) <= n.
Proof. unfold len, slice_to. apply firstn_le_length. Qed.

(** ** Exceptions *)

Lemma permission_error_is_os_error (e : exc) :
  isinstance e PermissionError = true -> isinstance e OSError = true.
Proof. unfold isinstance. destruct (e_class e); vm_compute; intro; congruence. Qed.

Lemma file_not_found_is_os_error (e : exc) :
  isinstance e FileNotFoundError = true -> isinstance e OSError = true.
Proof. unfold isinstance. destruct (e_class e); vm_compute; intro; congruence. Qed.

Lemma is_a_directory_is_os_error (e : exc) :
  isinstance e IsADirectoryError = true -> isinstance e OSError = true.
Proof. unfold isinstance. destruct (e_class e); vm_compute; intro; congruence. Qed.

(** ** [read_file], branch by branch *)

Section ReadFile.

Variable E : Env.

Lemma read_file_unfold (path : str) (w : World) :
  read_file E path w = read_file_branches E path w.
Proof.
  unfold read_file, read_file_branches, file_access, try_except, bind,
    path_expanduser, path_resolve, path_read_text, lift_res.
  destruct (expanduser E path) as [expanded|e]; simpl.
  - destruct (resolve E (w_sandbox w) expanded) as [target|e]; simpl.
    + destruct (read_text E (w_sandbox w) target) as [text|e]; simpl.
      * reflexivity.
      * repeat (destruct (isinstance e _); try reflexivity).
    + repeat (destruct (isinstance e _); try reflexivity).
  - repeat (destruct (isinstance e _); try reflexivity).
Qed.

End ReadFile.

(** ** The sandboxed file tool *)

Import Scenario.

Lemma failure_results_differ (p1 p2 p3 p4 : str) (cause : exc) :
  blocked_result p1 <> notfound_result p2 /\
  blocked_result p1 <> directory_result p3 /\
  blocked_result p1 <> oserror_result p4 cause /\
  notfound_result p2 <> directory_result p3 /\
  notfound_result p2 <> oserror_result p4 cause /\
  directory_result p3 <> oserror_result p4 cause.
Proof.
  unfold blocked_result, notfound_result, directory_result, oserror_result.
  repeat split; simpl; discriminate.
Qed.

Lemma blocked_result_only (path : str) (cause : exc) (r : str) :
  r = notfound_result path \/ r = directory_result path \/ r = oserror_result path cause ->
  r <> blocked_result path.
Proof.
  destruct (failure_results_differ path path path path cause) as (H1 & H2 & H3 & _).
  intros [-> | [-> | ->]]; congruence.
Qed.




(** C6: the slice [[:4096]] and [len] count characters, while the log line
    and the event call the count bytes. A file of 5000 euro signs is returned
    as 4096 characters, which are 12288 bytes of UTF-8, with an event that
    says 4096 bytes were read; the 5-byte file "ab€" is reported
    as 3 bytes. *)
Theorem read_file_counts_characters_not_bytes :
  (exists s evt,
      read_file machine (lit "/sandbox/euros.txt") confined
      = (Ret s, reported machine INFO (allowed_log (lit "/sandbox/euros.txt") 4096)
                         (allowed_event_text (lit "/sandbox/euros.txt") 4096) confined) /\
      len s = 4096 /\ utf8_len s = 3 * 4096 /\
      _tool_events
        (snd (read_file machine (lit "/sandbox/euros.txt") confined)) = [evt] /\
      contains (lit "ALLOWED (4096 bytes read)") (content evt) = true) /\
  (exists s evt,
      fst (read_file machine (lit "/sandbox/price.txt") confined) = Ret s /\
      utf8_len s = 5 /\
      _tool_events
        (snd (read_file machine (lit "/sandbox/price.txt") confined)) = [evt] /\
      contains (lit "ALLOWED (3 bytes read)") (content evt) = true /\
      contains (lit "ALLOWED (5 bytes read)") (content evt) = false).
Proof.
  split.
  - do 2 eexists. repeat split; vm_compute; reflexivity.
  - do 2 eexists. repeat split; vm_compute; reflexivity.
Qed.

(** C7: the [IsADirectoryError] and the generic [OSError] branch return
    their message and do nothing else: no log record is written and no event
    is buffered, unlike the three branches before them. *)
Theorem read_file_silent_on_directory_and_os_error :
  read_file machine (lit "/sandbox") confined
  = (Ret (directory_result (lit "/sandbox")), confined) /\
  read_file machine (lit "/sandbox/notes.txt/x") confined
  = (Ret (oserror_result (lit "/sandbox/notes.txt/x")
            (mk_exc NotADirectoryError
               (lit "[Errno 20] Not a directory: '/sandbox/notes.txt/x'"))), confined) /\
  w_log confined = [] /\ _tool_events confined = [].
Proof. repeat split; vm_compute; reflexivity. Qed.

(** ** [to_chat_message] and [get_chat] *)

Section ChatMessages.

Variable E : Env.

Lemma to_chat_message_text (text : str) (rest : list Part) (ts : datetime) :
  to_chat_message E (ModelResponse (TextPart text :: rest) ts) = Ret (model_message E text ts).
Proof. reflexivity. Qed.

Lemma to_chat_message_user (text : str) (rest : list Part) (ts : datetime) :
  to_chat_message E (ModelRequest (UserPromptPart (ContentStr text) ts :: rest))
  = Ret {| role := user; timestamp := isoformat E ts; content := text |}.
Proof. reflexivity. Qed.

(** With at least one part, every shape other than the two above is
    rejected with [UnexpectedModelBehavior]. *)
Lemma to_chat_message_rejects (m : ModelMessage) (p : Part) (rest : list Part) :
  parts_of m = p :: rest ->
  (forall r, to_chat_message E m <> Ret r) ->
  to_chat_message E m = Raise (unexpected_message E m).
Proof.
  intros Hp Hno. unfold to_chat_message in *. rewrite Hp in *.
  destruct m as [ps|ps ts]; destruct p as [| [text|items] | | | |];
    try reflexivity; exfalso; eapply Hno; reflexivity.
Qed.



Lemma get_messages_pure (w : World) : snd (get_messages E w) = w.
Proof.
  unfold get_messages, bind, gets, lift_res.
  destruct (extend_from E _ _); reflexivity.
Qed.

Lemma get_chat_unfold (w : World) :
  fst (get_chat E w)
  = match fst (get_messages E w) with
    | Ret msgs => chat_lines E msgs
    | Raise e => Raise e
    end.
Proof.
  unfold get_chat, bind, lift_res.
  destruct (get_messages E w) as [[msgs|e] w']; reflexivity.
Qed.

End ChatMessages.

(** C8: a message without parts fails at [m.parts[0]] with [IndexError],
    which is not an [UnexpectedModelBehavior]; the final [raise] of
    [to_chat_message] is never reached for it. *)
Theorem to_chat_message_index_error_without_parts :
  to_chat_message machine (ModelResponse [] 2) = Raise index_error /\
  to_chat_message machine (ModelRequest []) = Raise index_error /\
  isinstance index_error UnexpectedModelBehavior = false.
Proof. repeat split. Qed.


(** ** The conversation store *)

Section Store.

Variable E : Env.








Lemma get_messages_unfold (w : World) :
  fst (get_messages E w) = extend_from E (select_message_lists (w_db w)) [].
Proof. reflexivity. Qed.

End Store.


(** Scenario 3: one turn with a user and a model message is stored and
    read back as those two messages, in order. *)
Example get_messages_one_turn :
  fst (get_messages machine (appended [[]] unconfined)) = Ret user_turn.
Proof. reflexivity. Qed.

(** ** The streaming orchestrator *)

(** ** Rules for assertions *)

Section Rules.

Context {A B : Type}.

Lemma triple_bind (P : World -> Prop) (m : M World A) (Q : A -> World -> Prop)
      (k : A -> M World B) (R : B -> World -> Prop) (X : exc -> World -> Prop) :
  triple P m Q X -> (forall a, triple (Q a) (k a) R X) -> triple P (bind m k) R X.
Proof.
  intros Hm Hk w HP. unfold bind. specialize (Hm w HP).
  destruct (m w) as [[a|e] w']; [apply (Hk a w' Hm)|exact Hm].
Qed.

Lemma triple_weaken (P P' : World -> Prop) (m : M World A) (Q Q' : A -> World -> Prop)
      (X X' : exc -> World -> Prop) :
  triple P' m Q' X' ->
  (forall w, P w -> P' w) -> (forall a w, Q' a w -> Q a w) -> (forall e w, X' e w -> X e w) ->
  triple P m Q X.
Proof.
  intros Hm HP HQ HX w Hw. specialize (Hm w (HP w Hw)).
  destruct (m w) as [[a|e] w']; auto.
Qed.

Lemma triple_ret (P : World -> Prop) (a : A) (Q : A -> World -> Prop)
      (X : exc -> World -> Prop) :
  (forall w, P w -> Q a w) -> triple P (ret a) Q X.
Proof. intros H w Hw. apply H, Hw. Qed.

Lemma triple_modify (P : World -> Prop) (f : World -> World) (Q : unit -> World -> Prop)
      (X : exc -> World -> Prop) :
  (forall w, P w -> Q tt (f w)) -> triple P (modify f) Q X.
Proof. intros H w Hw. apply H, Hw. Qed.

Lemma triple_bind_lift_ret (P : World -> Prop) (a : A) (k : A -> M World B)
      (R : B -> World -> Prop) (X : exc -> World -> Prop) :
  triple P (k a) R X -> triple P (bind (lift_res (Ret a)) k) R X.
Proof. intros H w Hw. apply H, Hw. Qed.

Lemma triple_assuming (fact : Prop) (P : World -> Prop) (m : M World A)
      (Q : A -> World -> Prop) (X : exc -> World -> Prop) :
  (fact -> triple P m Q X) -> triple (fun w => fact /\ P w) m Q X.
Proof. intros H w [Hf Hw]. apply (H Hf w Hw). Qed.

End Rules.

Lemma emitted_app (a b : list Action) : emitted (a ++ b) = emitted a ++ emitted b.
Proof. apply flat_map_app. Qed.

Lemma produced_app (E : Env) (a b : list Action) :
  produced E (a ++ b) = produced E a ++ produced E b.
Proof. apply flat_map_app. Qed.

Lemma fragments_app (a b : list Action) : fragments (a ++ b) = fragments a ++ fragments b.
Proof. apply flat_map_app. Qed.

Lemma run_fragments_app (a b : list AgentStep) :
  run_fragments (a ++ b) = run_fragments a ++ run_fragments b.
Proof. apply flat_map_app. Qed.

(** Opens [running]: the frame, the client, the order, the fragments. *)
Ltac show_running seg := exists seg; split; [|split; [|split]].

Section TurnProofs.

Variable E : Env.
Variable start : World.
Variable d : option nat.
Variable u : ChatMessage.

Local Abbreviation running := (running E start d u).
Local Abbreviation stopped := (stopped E start u).

(** One more action of the turn. *)
Lemma turn_frame_step (seg : list Action) (w w' : World) (a : Action) :
  turn_frame start seg w -> in_turn a = true ->
  w_trace w' = w_trace w ++ [a] ->
  w_sandbox w' = w_sandbox w -> w_db w' = w_db w ->
  sent (w_conn w') = sent (w_conn w) ++ emitted [a] ->
  turn_frame start (seg ++ [a]) w'.
Proof.
  intros (Ht & Hin & Hs & Hd & Hc) Ha Ht' Hs' Hd' Hc'.
  repeat apply conj.
  - rewrite Ht', Ht, app_assoc. reflexivity.
  - rewrite forallb_app, Hin. simpl. rewrite Ha. reflexivity.
  - congruence.
  - congruence.
  - rewrite Hc', Hc, emitted_app. reflexivity.
Qed.

(** Nothing the turn is judged by has changed. *)
Lemma turn_frame_same (seg : list Action) (w w' : World) :
  turn_frame start seg w ->
  w_trace w' = w_trace w -> w_sandbox w' = w_sandbox w -> w_db w' = w_db w ->
  w_conn w' = w_conn w ->
  turn_frame start seg w'.
Proof.
  intros (Ht & Hin & Hs & Hd & Hc) Ht' Hs' Hd' Hc'.
  repeat apply conj; congruence.
Qed.

Lemma running_same (todo : list ChatMessage) (fr : list (str * datetime)) (w w' : World) :
  running todo fr w ->
  w_trace w' = w_trace w -> w_sandbox w' = w_sandbox w -> w_db w' = w_db w ->
  w_conn w' = w_conn w ->
  running todo fr w'.
Proof.
  intros (seg & Hf & Hr & He & Hfr) Ht Hs Hd Hc.
  exists seg. split; [eapply turn_frame_same; eauto|].
  split; [rewrite Hc; exact Hr|]. split; assumption.
Qed.

Lemma running_stopped (todo : list ChatMessage) (fr : list (str * datetime)) (w : World) :
  running todo fr w -> stopped w.
Proof. intros (seg & Hf & _ & He & _). exists seg, todo. auto. Qed.

(** A tool event is buffered. *)
Lemma running_reported (lv : Level) (msg text : str) (fr : list (str * datetime)) (w : World) :
  running (_tool_events w) fr w ->
  running (_tool_events (reported E lv msg text w)) fr (reported E lv msg text w).
Proof.
  intros (seg & Hf & Hr & He & Hfr).
  show_running (seg ++ [ActToolEvent (tool_event_at E w text)]).
  - eapply turn_frame_step; eauto; simpl; try reflexivity.
    now rewrite app_nil_r.
  - exact Hr.
  - rewrite emitted_app, produced_app. simpl. rewrite app_nil_r.
    rewrite app_assoc, He. reflexivity.
  - rewrite fragments_app. simpl. rewrite app_nil_r. exact Hfr.
Qed.

(** A fragment arrives. *)
Lemma running_fragment (text : str) (ts : datetime) (todo : list ChatMessage)
      (fr : list (str * datetime)) (w : World) :
  running todo fr w ->
  running (todo ++ [model_message E text ts]) (fr ++ [(text, ts)])
          (record (ActFragment text ts) w).
Proof.
  intros (seg & Hf & Hr & He & Hfr).
  show_running (seg ++ [ActFragment text ts]).
  - eapply turn_frame_step; eauto; simpl; try reflexivity.
    now rewrite app_nil_r.
  - exact Hr.
  - rewrite emitted_app, produced_app. simpl. rewrite app_nil_r.
    rewrite app_assoc, He. reflexivity.
  - rewrite fragments_app, Hfr. reflexivity.
Qed.

(** [yield]: the next chunk goes out, or the client has left. *)
Lemma yield_running (c : ChatMessage) (todo : list ChatMessage) (fr : list (str * datetime)) :
  triple (running (c :: todo) fr) (yield_ c)
         (fun _ => running todo fr) (fun _ => stopped).
Proof.
  intros w (seg & Hf & Hr & He & Hfr). unfold yield_.
  assert (Hstep : forall left, turn_frame start (seg ++ [ActYield c]) (deliver c left w)).
  { intros left. eapply turn_frame_step; eauto; reflexivity. }
  assert (Hout : emitted (seg ++ [ActYield c]) ++ todo = u :: produced E (seg ++ [ActYield c])).
  { rewrite emitted_app, produced_app. simpl. rewrite app_nil_r, <- app_assoc. exact He. }
  assert (Hfr' : fragments (seg ++ [ActYield c]) = fr).
  { rewrite fragments_app. simpl. rewrite app_nil_r. exact Hfr. }
  unfold reading in Hr.
  destruct (demand (w_conn w)) as [[|[|k]]|] eqn:Hd.
  - destruct Hr; lia.
  - exists (seg ++ [ActYield c]), todo. auto.
  - show_running (seg ++ [ActYield c]); auto.
    unfold reading. simpl. destruct Hr as [_ Hleft]. split; [lia|].
    rewrite Hleft, length_app. simpl. f_equal. lia.
  - show_running (seg ++ [ActYield c]); auto.
Qed.

Lemma for_each_yield_running (xs todo : list ChatMessage) (fr : list (str * datetime)) :
  triple (running (xs ++ todo) fr) (for_each xs yield_)
         (fun _ => running todo fr) (fun _ => stopped).
Proof.
  induction xs as [|x xs IH]; simpl.
  - apply triple_ret. auto.
  - eapply triple_bind; [apply yield_running|]. intros ?. exact IH.
Qed.

(** The flush before a chunk [suffix] that is still to be yielded. *)
Lemma flush_running (suffix : list ChatMessage) (fr : list (str * datetime)) :
  triple (fun w => running (_tool_events w ++ suffix) fr w) flush_tool_events
         (fun _ w => running suffix fr w /\ _tool_events w = []) (fun _ => stopped).
Proof.
  intros w Hw. unfold flush_tool_events, bind at 1, gets.
  pose proof (@for_each_yield_running (_tool_events w) suffix fr w Hw) as H.
  unfold bind. destruct (for_each (_tool_events w) yield_ w) as [[[]|e] w']; [|exact H].
  simpl. split; [|reflexivity].
  eapply running_same; eauto.
Qed.

Lemma read_file_running (path : str) (fr : list (str * datetime)) :
  triple (fun w => running (_tool_events w) fr w) (read_file E path)
         (fun _ w => running (_tool_events w) fr w) (fun _ => stopped).
Proof.
  intros w Hw. rewrite read_file_unfold. unfold read_file_branches.
  destruct (file_access E path w) as [text|e].
  - apply running_reported, Hw.
  - destruct (isinstance e PermissionError); [apply running_reported, Hw|].
    destruct (isinstance e FileNotFoundError); [apply running_reported, Hw|].
    destruct (isinstance e IsADirectoryError); [exact Hw|].
    destruct (isinstance e OSError); [exact Hw|].
    eapply running_stopped, Hw.
Qed.

Lemma yield_keeps_buffer (c : ChatMessage) (w : World) :
  _tool_events (snd (yield_ c w)) = _tool_events w.
Proof.
  unfold yield_. destruct (demand (w_conn w)) as [[|[|k]]|]; reflexivity.
Qed.

(** The chunk that ends an iteration, after the buffer was flushed. *)
Lemma yield_last_running (c : ChatMessage) (fr : list (str * datetime)) :
  triple (fun w => running [c] fr w /\ _tool_events w = []) (yield_ c)
         (fun _ w => running (_tool_events w) fr w) (fun _ => stopped).
Proof.
  intros w [Hw Hb]. pose proof (@yield_running c [] fr w Hw) as H.
  pose proof (yield_keeps_buffer c w) as Hk.
  destruct (yield_ c w) as [[[]|e] w']; [|exact H].
  simpl in Hk. rewrite Hk, Hb. exact H.
Qed.

Lemma agent_loop_running (todo : list AgentStep) :
  forall fr,
    triple (fun w => running (_tool_events w) fr w) (agent_loop E todo)
           (fun _ w => running (_tool_events w) (fr ++ run_fragments todo) w)
           (fun _ => stopped).
Proof.
  induction todo as [|[path|text ts] todo IH]; intros fr; simpl.
  - apply triple_ret. intros w Hw. now rewrite app_nil_r.
  - eapply triple_bind; [apply read_file_running|]. intros ?. apply IH.
  - eapply triple_bind.
    { apply triple_modify with
        (Q := fun _ w => running (_tool_events w ++ [model_message E text ts])
                                 (fr ++ [(text, ts)]) w).
      intros w Hw. apply running_fragment, Hw. }
    intros ?. eapply triple_bind; [apply flush_running|]. intros ?.
    apply triple_bind_lift_ret.
    eapply triple_bind; [apply yield_last_running|]. intros ?.
    change (fr ++ (text, ts) :: run_fragments todo)
      with (fr ++ [(text, ts)] ++ run_fragments todo).
    rewrite app_assoc. apply IH.
Qed.

Lemma get_messages_running (todo : list ChatMessage) (fr : list (str * datetime)) :
  triple (running todo fr) (get_messages E) (fun _ => running todo fr) (fun _ => stopped).
Proof.
  intros w Hw. pose proof (get_messages_pure E w) as Hp.
  destruct (get_messages E w) as [[msgs|e] w']; simpl in Hp; subst w'.
  - exact Hw.
  - eapply running_stopped, Hw.
Qed.

Lemma add_messages_completed (all : list AgentStep) (blob : bytes) (w : World) :
  running [] (run_fragments all) w ->
  completed E start d u all blob (snd (add_messages blob w)).
Proof.
  intros (seg & (Ht & Hin & Hs & Hd & Hc) & Hr & He & Hfr).
  exists seg. simpl. rewrite app_nil_r in He.
  rewrite Ht, Hd, <- app_assoc. auto 10.
Qed.

(** The generator, from its first statement to its last. *)
Lemma stream_messages_running (prompt : str) (run : AgentRun) :
  u = {| role := user; timestamp := isoformat E (clock E (w_ticks start)); content := prompt |} ->
  w_conn start = {| sent := []; demand := d |} ->
  d <> Some 0 ->
  triple (eq start) (stream_messages E prompt run)
         (fun _ w => exists blob, ending run = AgentReturns blob /\
                                  completed E start d u (steps run) blob w)
         (fun _ => stopped).
Proof.
  intros Hu Hconn Hd.
  assert (H0 : running [u] [] start).
  { show_running (@nil Action).
    - unfold turn_frame. rewrite app_nil_r, Hconn. auto.
    - unfold reading. rewrite Hconn. simpl.
      destruct d as [[|k]|]; [congruence| split; [lia|reflexivity] | reflexivity].
    - reflexivity.
    - reflexivity. }
  unfold stream_messages.
  eapply triple_bind with (Q := fun ts w => ts = clock E (w_ticks start) /\ running [u] [] w).
  { intros w <-. simpl. split; [reflexivity|]. eapply running_same; eauto. }
  intros ts. apply triple_assuming. intros ->. rewrite <- Hu.
  eapply triple_bind; [apply yield_running|]. intros ?.
  eapply triple_bind; [apply get_messages_running|]. intros ?.
  eapply triple_bind with (Q := fun _ w => running (_tool_events w) [] w).
  { apply triple_modify. intros w Hw. eapply running_same; eauto. }
  intros ?.
  eapply triple_bind; [apply (@agent_loop_running (steps run) [])|]. intros ?.
  simpl. destruct (ending run) as [blob|e].
  - eapply triple_bind with
      (Q := fun _ w => running [] (run_fragments (steps run)) w /\ _tool_events w = []).
    { eapply triple_weaken;
        [apply (@flush_running [] (run_fragments (steps run))) | | |].
      - intros w Hw. cbv beta. rewrite app_nil_r. exact Hw.
      - intros ? w Hw. exact Hw.
      - intros ? w Hw. exact Hw. }
    intros ?. intros w [Hw _]. exists blob. split; [reflexivity|].
    apply add_messages_completed, Hw.
  - intros w Hw. eapply running_stopped, Hw.
Qed.

End TurnProofs.

Section PostChat.

Variable E : Env.

Lemma post_chat_outcome (prompt : str) (run : AgentRun) (d : option nat) (w : World) :
  match post_chat E prompt run d w with
  | (Ret _, w') =>
      exists blob, ending run = AgentReturns blob /\
                   completed E (connected d w) d (user_event E prompt w) (steps run) blob w'
  | (Raise _, w') => stopped E (connected d w) (user_event E prompt w) w'
  end.
Proof.
  assert (Hgo : d <> Some 0 ->
                match stream_messages E prompt run (connected d w) with
                | (Ret _, w') =>
                    exists blob, ending run = AgentReturns blob /\
                      completed E (connected d w) d (user_event E prompt w) (steps run) blob w'
                | (Raise _, w') => stopped E (connected d w) (user_event E prompt w) w'
                end).
  { intros Hd.
    exact (@stream_messages_running E (connected d w) d (user_event E prompt w) prompt run
             eq_refl eq_refl Hd (connected d w) eq_refl). }
  unfold post_chat. fold (connected d w).
  destruct d as [[|k]|]; try (apply Hgo; congruence).
  exists [], [user_event E prompt w]. split; [|reflexivity].
  unfold turn_frame. simpl. rewrite app_nil_r. auto.
Qed.

End PostChat.


Lemma in_turn_no_apply (seg : list Action) :
  forallb in_turn seg = true -> existsb is_apply seg = false.
Proof.
  induction seg as [|a seg IH]; simpl; [reflexivity|].
  intros H. apply andb_true_iff in H as [Ha Hs].
  rewrite (IH Hs). destruct a; simpl in *; congruence.
Qed.






(** ** The CLI *)

Lemma confined_step_refl (w : World) : confined_step w w.
Proof. split; [reflexivity|]. exists []. now rewrite app_nil_r. Qed.

Lemma confined_step_trans (w1 w2 w3 : World) :
  confined_step w1 w2 -> confined_step w2 w3 -> confined_step w1 w3.
Proof.
  intros [Hs1 (seg1 & Ht1 & Hn1)] [Hs2 (seg2 & Ht2 & Hn2)].
  split; [congruence|]. exists (seg1 ++ seg2). split.
  - rewrite Ht2, Ht1, app_assoc. reflexivity.
  - rewrite existsb_app, Hn1, Hn2. reflexivity.
Qed.

Section Serving.

Variable E : Env.

Lemma get_chat_pure (w : World) : snd (get_chat E w) = w.
Proof.
  unfold get_chat, bind, lift_res.
  pose proof (get_messages_pure E w) as Hp.
  destruct (get_messages E w) as [[msgs|e] w']; simpl in *; subst w'; [|reflexivity].
  destruct (chat_lines E msgs); reflexivity.
Qed.

Lemma post_chat_confined (prompt : str) (run : AgentRun) (d : option nat) (w : World) :
  confined_step w (snd (post_chat E prompt run d w)).
Proof.
  pose proof (post_chat_outcome E prompt run d w) as H.
  destruct (post_chat E prompt run d w) as [[[]|e] w']; simpl.
  - destruct H as (blob & _ & seg & Ht & Hin & Hs & _).
    split; [exact Hs|]. exists (seg ++ [ActAddMessages blob]). split; [exact Ht|].
    rewrite existsb_app, (in_turn_no_apply _ Hin). reflexivity.
  - destruct H as (seg & rest & (Ht & Hin & Hs & _) & _).
    split; [exact Hs|]. exists seg. split; [exact Ht|].
    apply in_turn_no_apply, Hin.
Qed.

Lemma handle_confined (r : Request) (w : World) : confined_step w (snd (handle E r w)).
Proof.
  destruct r as [| | |prompt run d]; simpl.
  - apply confined_step_refl.
  - apply confined_step_refl.
  - unfold bind. pose proof (get_chat_pure w) as Hp.
    destruct (get_chat E w) as [[lines|e] w']; simpl in *; subst w';
      apply confined_step_refl.
  - apply post_chat_confined.
Qed.

Lemma serve_requests_confined (traffic : list Request) (w : World) :
  fst (for_each traffic (serve_request E) w) = Ret tt /\
  confined_step w (snd (for_each traffic (serve_request E) w)).
Proof.
  revert w. induction traffic as [|r traffic IH]; intros w; simpl.
  - split; [reflexivity|apply confined_step_refl].
  - unfold bind, serve_request at 1.
    destruct (IH (snd (handle E r w))) as [Hr Hc]. split; [exact Hr|].
    eapply confined_step_trans; [apply handle_confined|exact Hc].
Qed.

Lemma serve_unfold (host : str) (port : nat) (reload : bool) (workers : nat)
      (no_sandbox : bool) (traffic : list Request) (w : World) :
  serve E host port reload workers no_sandbox traffic w
  = match (if negb no_sandbox then _apply_sandbox E else ret tt) w with
    | (Ret _, w1) =>
        for_each traffic (serve_request E)
                 (record ActUvicornRun (record (ActEcho (banner host port)) w1))
    | (Raise e, w1) => (Raise e, w1)
    end.
Proof.
  unfold serve, uvicorn_run, bind, modify.
  destruct ((if negb no_sandbox then _apply_sandbox E else ret tt) w) as [[[]|e] w1];
    reflexivity.
Qed.

End Serving.

(** C1: [serve] without [--no-sandbox] in a process where nothing was
    applied calls [apply] exactly once, with the capability set built by
    [_apply_sandbox], before the start message and before [uvicorn.run];
    whatever requests are served afterwards (with whatever the agent and
    [read_file] do inside them), no further [apply] occurs, the set in force
    stays the one applied, and another [apply] fails with [AlreadyApplied].
    In a process where a set is already in force [serve] fails with
    [AlreadyApplied] and serves nothing. *)
Theorem serve_applies_sandbox_once
        (E : Env) (host : str) (port : nat) (reload : bool) (workers : nat)
        (traffic : list Request) (w : World) :
  match w_sandbox w with
  | None =>
      exists served,
        fst (serve E host port reload workers false traffic w) = Ret tt /\
        w_trace (snd (serve E host port reload workers false traffic w))
        = w_trace w ++ [ActApply (sandbox_caps E); ActEcho (banner host port); ActUvicornRun]
                    ++ served /\
        existsb is_apply served = false /\
        w_sandbox (snd (serve E host port reload workers false traffic w))
        = Some (sandbox_caps E) /\
        (forall caps,
            nono_apply caps (snd (serve E host port reload workers false traffic w))
            = (Raise already_applied, snd (serve E host port reload workers false traffic w)))
  | Some _ =>
      serve E host port reload workers false traffic w = (Raise already_applied, w)
  end.
Proof.
  rewrite serve_unfold. simpl. unfold _apply_sandbox, nono_apply.
  destruct (w_sandbox w) as [old|] eqn:Hsb; [reflexivity|].
  set (w1 := record ActUvicornRun
               (record (ActEcho (banner host port))
                  (record (ActApply (sandbox_caps E)) (set_sandbox (Some (sandbox_caps E)) w)))).
  destruct (serve_requests_confined E traffic w1) as [Hr [Hs (served & Ht & Hn)]].
  exists served. repeat apply conj.
  - exact Hr.
  - rewrite Ht. unfold w1. simpl. rewrite <- !app_assoc. reflexivity.
  - exact Hn.
  - rewrite Hs. reflexivity.
  - intros caps. rewrite Hs. reflexivity.
Qed.

Lemma file_access_unfold (E : Env) (path : str) (w : World) :
  file_access E path w
  = match expanduser E path with
    | Ret expanded =>
        match resolve E (w_sandbox w) expanded with
        | Ret target => read_text E (w_sandbox w) target
        | Raise e => Raise e
        end
    | Raise e => Raise e
    end.
Proof.
  unfold file_access, bind, path_expanduser, path_resolve, path_read_text, lift_res.
  destruct (expanduser E path) as [expanded|e]; simpl; [|reflexivity].
  destruct (resolve E (w_sandbox w) expanded) as [target|e]; reflexivity.
Qed.

Lemma reported_level (E : Env) (lv lv' : Level) (msg msg' text text' : str) (w : World) :
  reported E lv msg text w = reported E lv' msg' text' w -> lv = lv'.
Proof.
  intros H. apply (f_equal w_log) in H. simpl in H.
  apply app_inv_head in H. congruence.
Qed.

(** C10, as stated, fails in the "only if" direction: a readable file
    whose content is the text of the BLOCKED message makes [read_file] return
    that message although no permission error was raised. *)
Lemma read_file_blocked_text_without_denial :
  fst (read_file machine (lit "/sandbox/decoy.txt") confined)
  = Ret (blocked_result (lit "/sandbox/decoy.txt")) /\
  file_access machine (lit "/sandbox/decoy.txt") confined
  = Ret (blocked_result (lit "/sandbox/decoy.txt")).
Proof. split; vm_compute; reflexivity. Qed.

(** C10 (amended): [read_file] takes its BLOCKED branch (warning logged,
    BLOCKED event buffered, BLOCKED message returned) exactly when expanding,
    resolving or reading the path raises a [PermissionError]; the returned
    string is the BLOCKED message exactly when that happened or the read
    succeeded with a content that is this very text. The result is a function
    of the filesystem's answer alone: the capability set is not consulted.
    [serve --no-sandbox] leaves the sandbox state as it was, and with nothing
    applied [read_file] returns the content (cut to 4096 characters) of every
    path the unrestricted system reads. *)
Theorem read_file_defers_to_the_os (E : Env) (path : str) (w : World) :
  ((exists e, file_access E path w = Raise e /\ isinstance e PermissionError = true) <->
   read_file E path w
   = (Ret (blocked_result path),
      reported E WARNING (blocked_log path) (blocked_event_text path) w)) /\
  (fst (read_file E path w) = Ret (blocked_result path) <->
   (exists e, file_access E path w = Raise e /\ isinstance e PermissionError = true) \/
   (exists text, file_access E path w = Ret text /\
                 slice_to 4096 text = blocked_result path)) /\
  (forall w2, file_access E path w2 = file_access E path w ->
              fst (read_file E path w2) = fst (read_file E path w)) /\
  (forall host port reload workers traffic,
      w_sandbox (snd (serve E host port reload workers true traffic w)) = w_sandbox w) /\
  (forall expanded target text,
      w_sandbox w = None ->
      expanduser E path = Ret expanded ->
      resolve E None expanded = Ret target ->
      read_text E None target = Ret text ->
      fst (read_file E path w) = Ret (slice_to 4096 text)).
Proof.
  split; [|split; [|split; [|split]]].
  - rewrite read_file_unfold. unfold read_file_branches. split.
    + intros (e & -> & ->). reflexivity.
    + destruct (file_access E path w) as [text|e].
      * intros H. apply (f_equal snd) in H. cbn [snd] in H.
        apply reported_level in H. discriminate.
      * destruct (isinstance e PermissionError) eqn:Hp; [eauto|].
        intros H. apply (f_equal fst) in H. exfalso. revert H.
        destruct (isinstance e FileNotFoundError); [|
        destruct (isinstance e IsADirectoryError); [|
        destruct (isinstance e OSError)]]; cbn [fst]; intros H;
          try discriminate; injection H as H;
          apply (@blocked_result_only path e _) in H; auto.
  - rewrite read_file_unfold. unfold read_file_branches. split.
    + destruct (file_access E path w) as [text|e].
      * cbn [fst]. intros H. injection H as H. right. eauto.
      * destruct (isinstance e PermissionError) eqn:Hp; [eauto|].
        intros H. exfalso. revert H.
        destruct (isinstance e FileNotFoundError); [|
        destruct (isinstance e IsADirectoryError); [|
        destruct (isinstance e OSError)]]; cbn [fst]; intros H;
          try discriminate; injection H as H;
          apply (@blocked_result_only path e _) in H; auto.
    + intros [(e & -> & ->) | (text & -> & Hs)]; cbn [fst]; [reflexivity|].
      rewrite Hs. reflexivity.
  - intros w2 H. rewrite !read_file_unfold. unfold read_file_branches. rewrite H.
    destruct (file_access E path w) as [text|e]; [reflexivity|].
    repeat (destruct (isinstance e _); [reflexivity|]). reflexivity.
  - intros host port reload workers traffic. rewrite serve_unfold. simpl.
    destruct (serve_requests_confined E traffic
                (record ActUvicornRun (record (ActEcho (banner host port)) w)))
      as [_ [Hs _]].
    rewrite Hs. reflexivity.
  - intros expanded target text Hnone He Hr Ht.
    rewrite read_file_unfold. unfold read_file_branches.
    rewrite file_access_unfold, Hnone, He, Hr, Ht. reflexivity.
Qed.

(** ** The scenarios of the specification, run *)

(** Scenario 2: a file inside the sandbox is returned, and the event
    records the count. *)
Example read_file_allowed_notes :
  fst (read_file machine (lit "/sandbox/notes.txt") confined) = Ret (lit "hello") /\
  map content (_tool_events (snd (read_file machine (lit "/sandbox/notes.txt") confined)))
  = [lit "read_file(/sandbox/notes.txt) -- ALLOWED (5 bytes read)"].
Proof. split; vm_compute; reflexivity. Qed.

(** Scenario 4: two tool calls, then the final text. *)
Example post_chat_two_tools_then_text :
  let run := {| steps := [ToolCall (lit "/sandbox/notes.txt");
                          ToolCall (lit "/etc/passwd");
                          TextFragment (lit "done") 9];
                ending := AgentReturns [] |} in
  let after := snd (post_chat machine (lit "read them") run None confined) in
  map role (sent (w_conn after)) = [user; tool; tool; model] /\
  map content (sent (w_conn after))
  = [lit "read them";
     lit "read_file(/sandbox/notes.txt) -- ALLOWED (5 bytes read)";
     lit "read_file(/etc/passwd) -- BLOCKED by nono sandbox (permission denied)";
     lit "done"] /\
  rows (w_db after) = [(1%Z, [])].
Proof. repeat split; vm_compute; reflexivity. Qed.

(** The same turn with a client that leaves after two chunks. *)
Example post_chat_client_leaves :
  let run := {| steps := [ToolCall (lit "/sandbox/notes.txt");
                          ToolCall (lit "/etc/passwd");
                          TextFragment (lit "done") 9];
                ending := AgentReturns [] |} in
  let gone := post_chat machine (lit "read them") run (Some 2) confined in
  fst gone = Raise generator_exit /\
  map role (sent (w_conn (snd gone))) = [user; tool] /\
  rows (w_db (snd gone)) = [].
Proof. repeat split; vm_compute; reflexivity. Qed.

(** A turn in which the agent fails with [UnexpectedModelBehavior] after a
    fragment: the error reaches the caller and nothing is stored. *)
Example post_chat_agent_fails :
  let boom := mk_exc UnexpectedModelBehavior (lit "Received empty model response") in
  let run := {| steps := [TextFragment (lit "par") 9]; ending := AgentRaises boom |} in
  let failed := post_chat machine (lit "hi") run None confined in
  fst failed = Raise boom /\
  map role (sent (w_conn (snd failed))) = [user; model] /\
  rows (w_db (snd failed)) = [].
Proof. repeat split; vm_compute; reflexivity. Qed.

(** After a turn with a tool call was stored, the history holds a response
    that starts with a tool call, and [get_chat] fails on it. *)
Example get_chat_fails_on_tool_call :
  let E := mk_env home_of (fun _ p => Ret p) kernel_read (fun n => n) str_of_nat
             (fun _ => Ret [ModelRequest [UserPromptPart (ContentStr (lit "hi")) 1];
                            ModelResponse [ToolCallPart (lit "read_file") (lit "{}")] 2])
             (fun _ => lit "<message>") [] [] [] [] [] in
  exists e, fst (get_chat E (appended [[]] unconfined)) = Raise e /\
            e_class e = UnexpectedModelBehavior.
Proof. eexists. split; vm_compute; reflexivity. Qed.

(** [serve] on the scenario machine: the sandbox is applied first. *)
Example serve_applies_first :
  map is_apply
      (w_trace (snd (serve machine (lit "127.0.0.1") (8 * 1000) false 1 false [GetChat; GetIndex]
                           unconfined)))
  = [true; false; false].
Proof. vm_compute. reflexivity. Qed.

(** * Further properties of the code *)

(** ** [read_file] *)

Lemma utf8_len_ascii (s : str) : is_ascii s = true -> utf8_len s = len s.
Proof.
  unfold utf8_len, len. induction s as [|c s IH]; simpl; [reflexivity|].
  intros H. apply andb_true_iff in H as [Hc Hs].
  unfold utf8_width at 1. rewrite Hc. simpl. f_equal. exact (IH Hs).
Qed.

Lemma is_ascii_slice (n : nat) (s : str) : is_ascii s = true -> is_ascii (slice_to n s) = true.
Proof.
  unfold is_ascii, slice_to. revert s. induction n as [|n IH]; intros [|c s]; simpl; auto.
  intros H. apply andb_true_iff in H as [Hc Hs]. rewrite Hc. simpl. auto.
Qed.

Lemma startswith_app3 (a b c t : str) : startswith (a ++ b ++ c) (a ++ b ++ c ++ t) = true.
Proof.
  replace (a ++ b ++ c ++ t) with ((a ++ b ++ c) ++ t) by now rewrite <- !app_assoc.
  apply startswith_app.
Qed.

(** The two shapes of the world after a call. *)
Lemma read_file_world_shape (E : Env) (path : str) (w : World) :
  snd (read_file E path w) = w \/
  exists lv msg text, snd (read_file E path w) = reported E lv msg text w.
Proof.
  rewrite read_file_unfold. unfold read_file_branches.
  destruct (file_access E path w) as [text|e]; [right; cbn [snd]; eauto|].
  destruct (isinstance e PermissionError); [right; cbn [snd]; eauto|].
  destruct (isinstance e FileNotFoundError); [right; cbn [snd]; eauto|].
  destruct (isinstance e IsADirectoryError); [left; reflexivity|].
  destruct (isinstance e OSError); left; reflexivity.
Qed.

(** X1: a call of [read_file] either leaves the process state exactly as it
    was, or adds one log record and one tool event together: the event has
    role [tool], the time of the call and a text that starts with
    "read_file(<path>) -- "; the clock was read once; and the record is a
    WARNING exactly when a [PermissionError] was raised. *)
Theorem read_file_logs_and_buffers_together (E : Env) (path : str) (w : World) :
  snd (read_file E path w) = w \/
  exists lv msg evt,
    w_log (snd (read_file E path w)) = w_log w ++ [mk_log lv msg] /\
    _tool_events (snd (read_file E path w)) = _tool_events w ++ [evt] /\
    role evt = tool /\
    timestamp evt = isoformat E (clock E (w_ticks w)) /\
    startswith (lit "read_file(" ++ path ++ lit ") -- ") (content evt) = true /\
    w_ticks (snd (read_file E path w)) = S (w_ticks w) /\
    (lv = WARNING <->
     exists e, file_access E path w = Raise e /\ isinstance e PermissionError = true).
Proof.
  rewrite read_file_unfold. unfold read_file_branches.
  assert (Hev : forall lv msg tail (cond : Prop),
             (lv = WARNING <-> cond) ->
             exists lv' msg' evt,
               w_log (reported E lv msg (lit "read_file(" ++ path ++ lit ") -- " ++ tail) w)
               = w_log w ++ [mk_log lv' msg'] /\
               _tool_events (reported E lv msg (lit "read_file(" ++ path ++ lit ") -- " ++ tail) w)
               = _tool_events w ++ [evt] /\
               role evt = tool /\
               timestamp evt = isoformat E (clock E (w_ticks w)) /\
               startswith (lit "read_file(" ++ path ++ lit ") -- ") (content evt) = true /\
               w_ticks (reported E lv msg (lit "read_file(" ++ path ++ lit ") -- " ++ tail) w)
               = S (w_ticks w) /\
               (lv' = WARNING <-> cond)).
  { intros lv msg tail cond Hc. exists lv, msg. eexists.
    split; [reflexivity|]. split; [reflexivity|]. split; [reflexivity|].
    split; [reflexivity|]. split; [|split; [reflexivity|exact Hc]].
    exact (startswith_app3 (lit "read_file(") path (lit ") -- ") tail). }
  destruct (file_access E path w) as [text|e].
  - right. cbn [snd].
    apply (Hev INFO _ (lit "ALLOWED (" ++ str_of_nat (len (slice_to 4096 text))
                        ++ lit " bytes read)")).
    split; [discriminate|]. intros (e & He & _). discriminate.
  - destruct (isinstance e PermissionError) eqn:Hp.
    { right. cbn [snd].
      apply (Hev WARNING _ (lit "BLOCKED by nono sandbox (permission denied)")).
      split; [eauto|reflexivity]. }
    destruct (isinstance e FileNotFoundError).
    { right. cbn [snd]. apply (Hev INFO _ (lit "file not found")).
      split; [discriminate|]. intros (e' & He & Hp'). inversion He; subst. congruence. }
    destruct (isinstance e IsADirectoryError); [left; reflexivity|].
    destruct (isinstance e OSError); left; reflexivity.
Qed.

(** X2: when the file can be read, [read_file] returns a prefix of its text
    of at most 4096 characters, the whole text when it is that short; for
    ASCII text the result is also at most 4096 bytes of UTF-8 and the
    character count is the byte count. *)
Theorem read_file_returns_at_most_4096_characters
        (E : Env) (path text : str) (w : World) :
  file_access E path w = Ret text ->
  fst (read_file E path w) = Ret (slice_to 4096 text) /\
  len (slice_to 4096 text) <= 4096 /\
  (len text <= 4096 -> slice_to 4096 text = text) /\
  (exists rest, text = slice_to 4096 text ++ rest) /\
  (is_ascii text = true ->
   utf8_len (slice_to 4096 text) = len (slice_to 4096 text) /\
   utf8_len (slice_to 4096 text) <= 4096).
Proof.
  intros Hfs. rewrite read_file_unfold. unfold read_file_branches. rewrite Hfs.
  split; [reflexivity|]. split; [apply len_slice_to|]. split; [|split].
  - unfold len, slice_to. apply firstn_all2.
  - exists (skipn 4096 text). unfold slice_to. symmetry. apply firstn_skipn.
  - intros Ha. pose proof (utf8_len_ascii _ (is_ascii_slice 4096 _ Ha)) as Hu.
    split; [exact Hu|]. rewrite Hu. apply len_slice_to.
Qed.

Lemma read_file_returns_at_most_4096_characters_witness :
  file_access machine (lit "/sandbox/notes.txt") confined = Ret (lit "hello") /\
  fst (read_file machine (lit "/sandbox/notes.txt") confined)
  = Ret (slice_to 4096 (lit "hello")).
Proof.
  assert (H : file_access machine (lit "/sandbox/notes.txt") confined = Ret (lit "hello"))
    by (vm_compute; reflexivity).
  split; [exact H|].
  exact (proj1 (read_file_returns_at_most_4096_characters
                  machine (lit "/sandbox/notes.txt") confined H)).
Defined.

(** X3: [read_file] never changes the sandbox, the table or the response
    stream; it buffers at most one event, recorded in the history, and only
    appends to the log. *)
Theorem read_file_touches_only_log_clock_and_buffer (E : Env) (path : str) (w : World) :
  w_sandbox (snd (read_file E path w)) = w_sandbox w /\
  w_db (snd (read_file E path w)) = w_db w /\
  w_conn (snd (read_file E path w)) = w_conn w /\
  (exists new, _tool_events (snd (read_file E path w)) = _tool_events w ++ new /\
               w_trace (snd (read_file E path w)) = w_trace w ++ map ActToolEvent new /\
               List.length new <= 1) /\
  (exists lines, w_log (snd (read_file E path w)) = w_log w ++ lines).
Proof.
  destruct (read_file_world_shape E path w) as [H|(lv & msg & text & H)];
    rewrite H.
  - repeat split; try reflexivity.
    + exists []. simpl. rewrite !app_nil_r. auto.
    + exists []. now rewrite app_nil_r.
  - repeat split; try reflexivity.
    + eexists [_]. simpl. auto.
    + eexists. reflexivity.
Qed.

(** ** [to_chat_message] and [get_chat] *)

(** X4: [to_chat_message] returns a record in exactly two cases, a request
    whose first part is a user prompt with string content (role [user]) and
    a response whose first part is a text part (role [model]); it never
    produces role [tool]. It raises [IndexError] exactly for a message
    without parts and [UnexpectedModelBehavior], naming the message, for
    every other message. *)
Theorem to_chat_message_cases (E : Env) (m : ModelMessage) :
  match to_chat_message E m with
  | Ret r =>
      role r <> tool /\
      ((exists text ts rest,
           m = ModelRequest (UserPromptPart (ContentStr text) ts :: rest) /\
           r = {| role := user; timestamp := isoformat E ts; content := text |}) \/
       (exists text rest ts,
           m = ModelResponse (TextPart text :: rest) ts /\
           r = {| role := model; timestamp := isoformat E ts; content := text |}))
  | Raise e =>
      (parts_of m = [] /\ e = index_error) \/
      (parts_of m <> [] /\ e = unexpected_message E m)
  end.
Proof.
  destruct m as [[|p rest]|[|p rest] ts]; simpl;
    try (left; split; reflexivity);
    destruct p as [| [text|items] | | | |]; simpl;
    try (right; split; [discriminate|reflexivity]).
  - split; [discriminate|]. left. eauto.
  - split; [discriminate|]. right. eauto.
Qed.

Lemma chat_lines_each (E : Env) (msgs : list ModelMessage) (lines : list ChatMessage) :
  chat_lines E msgs = Ret lines <->
  Forall2 (fun m line => to_chat_message E m = Ret line) msgs lines.
Proof.
  revert lines. induction msgs as [|m msgs IH]; intros lines; simpl.
  - split.
    + intros H. inversion H. constructor.
    + intros H. inversion H. reflexivity.
  - destruct (to_chat_message E m) as [line|e] eqn:Hm.
    + destruct (chat_lines E msgs) as [rest|e] eqn:Hrest.
      * split.
        -- intros H. inversion H; subst. constructor; [exact Hm|]. apply IH. reflexivity.
        -- intros H. inversion H as [|? line' ? rest' Hl Hr]; subst.
           rewrite Hm in Hl. inversion Hl; subst.
           apply IH in Hr. inversion Hr. reflexivity.
      * split; [discriminate|].
        intros H. inversion H as [|? line' ? rest' Hl Hr]; subst.
        apply IH in Hr. discriminate.
    + split; [discriminate|].
      intros H. inversion H as [|? line' ? rest' Hl Hr]; subst. congruence.
Qed.

(** X5: when [get_chat] succeeds, its lines are the renderings of the stored
    messages, one line per message and in their order, none of role [tool],
    and the process state is unchanged. *)
Theorem get_chat_one_line_per_message (E : Env) (w : World) (lines : list ChatMessage) :
  fst (get_chat E w) = Ret lines ->
  exists msgs,
    fst (get_messages E w) = Ret msgs /\
    Forall2 (fun m line => to_chat_message E m = Ret line) msgs lines /\
    List.length lines = List.length msgs /\
    Forall (fun line => role line <> tool) lines /\
    snd (get_chat E w) = w.
Proof.
  rewrite get_chat_unfold. intros H.
  destruct (fst (get_messages E w)) as [msgs|e] eqn:Hm; [|discriminate].
  exists msgs. apply chat_lines_each in H.
  split; [reflexivity|]. split; [exact H|]. split; [|split].
  - symmetry. eapply Forall2_length, H.
  - clear Hm. induction H as [|m line msgs lines Hl _ IH]; constructor; [|exact IH].
    pose proof (to_chat_message_cases E m) as Hc. rewrite Hl in Hc. apply Hc.
  - apply get_chat_pure.
Qed.

Lemma get_chat_one_line_per_message_witness :
  fst (get_chat machine (appended [[]] unconfined))
  = Ret [ {| role := user; timestamp := lit "1"; content := lit "hi" |};
          {| role := model; timestamp := lit "2"; content := lit "hello" |} ] /\
  exists msgs, fst (get_messages machine (appended [[]] unconfined)) = Ret msgs /\
               List.length msgs = 2.
Proof.
  assert (H : fst (get_chat machine (appended [[]] unconfined))
              = Ret [ {| role := user; timestamp := lit "1"; content := lit "hi" |};
                      {| role := model; timestamp := lit "2"; content := lit "hello" |} ])
    by (vm_compute; reflexivity).
  split; [exact H|].
  destruct (get_chat_one_line_per_message machine (appended [[]] unconfined) H)
    as (msgs & Hm & _ & Hlen & _).
  exists msgs. split; [exact Hm|]. symmetry. exact Hlen.
Defined.



(** ** [post_chat] *)

Lemma same_but_buffer_fields (w1 w2 : World) :
  same_but_buffer w1 w2 ->
  w_sandbox w1 = w_sandbox w2 /\ w_ticks w1 = w_ticks w2 /\ w_log w1 = w_log w2 /\
  w_db w1 = w_db w2 /\ w_conn w1 = w_conn w2 /\ w_trace w1 = w_trace w2.
Proof.
  unfold same_but_buffer. destruct w1, w2. simpl. intros H. inversion H. auto 10.
Qed.

Lemma same_but_buffer_intro (w1 w2 : World) :
  w_sandbox w1 = w_sandbox w2 -> w_ticks w1 = w_ticks w2 -> w_log w1 = w_log w2 ->
  w_db w1 = w_db w2 -> w_conn w1 = w_conn w2 -> w_trace w1 = w_trace w2 ->
  same_but_buffer w1 w2.
Proof.
  unfold same_but_buffer. destruct w1, w2. simpl. intros; subst. reflexivity.
Qed.

Lemma buffer_blind_bind {A B} (m : M World A) (k : A -> M World B) :
  buffer_blind m -> (forall a, buffer_reset (k a)) -> buffer_reset (bind m k).
Proof.
  intros Hm Hk w1 w2 Hs. unfold bind. destruct (Hm w1 w2 Hs) as [Hf Hs'].
  destruct (m w1) as [[a|e] w1'], (m w2) as [[a'|e'] w2']; simpl in *;
    inversion Hf; subst.
  - apply Hk, Hs'.
  - split; [reflexivity|]. split; [exact Hs'|]. discriminate.
Qed.

Lemma buffer_reset_bind {A B} (m : M World A) (k : A -> M World B) :
  buffer_reset m -> buffer_reset (bind m k).
Proof.
  intros Hm w1 w2 Hs. unfold bind. destruct (Hm w1 w2 Hs) as (Hf & Hs' & Heq).
  destruct (m w1) as [[a|e] w1'], (m w2) as [[a'|e'] w2']; simpl in *;
    inversion Hf; subst.
  - rewrite (Heq a' eq_refl).
    split; [reflexivity|]. split; [reflexivity|]. reflexivity.
  - split; [reflexivity|]. split; [exact Hs'|]. discriminate.
Qed.

Lemma now_buffer_blind (E : Env) : buffer_blind (now E).
Proof.
  intros w1 w2 Hs. destruct (same_but_buffer_fields Hs) as (H1 & H2 & H3 & H4 & H5 & H6).
  unfold now. simpl. rewrite H2. split; [reflexivity|].
  apply same_but_buffer_intro; simpl; congruence.
Qed.

Lemma yield_buffer_blind (c : ChatMessage) : buffer_blind (yield_ c).
Proof.
  intros w1 w2 Hs. destruct (same_but_buffer_fields Hs) as (H1 & H2 & H3 & H4 & H5 & H6).
  unfold yield_. rewrite H5.
  destruct (demand (w_conn w2)) as [[|[|k]]|]; simpl; (split; [reflexivity|]);
    try exact Hs; apply same_but_buffer_intro; simpl; congruence.
Qed.

Lemma get_messages_buffer_blind (E : Env) : buffer_blind (get_messages E).
Proof.
  intros w1 w2 Hs. destruct (same_but_buffer_fields Hs) as (H1 & H2 & H3 & H4 & H5 & H6).
  rewrite !get_messages_pure, !get_messages_unfold, H4. auto.
Qed.

Lemma tool_events_clear_buffer_reset : buffer_reset tool_events_clear.
Proof.
  intros w1 w2 Hs. unfold tool_events_clear, modify. simpl.
  split; [reflexivity|]. split; [|intros _ _; exact Hs].
  unfold same_but_buffer in *. destruct w1, w2. simpl in *. exact Hs.
Qed.

Lemma stream_messages_buffer_reset (E : Env) (prompt : str) (run : AgentRun) :
  buffer_reset (stream_messages E prompt run).
Proof.
  unfold stream_messages.
  apply buffer_blind_bind; [apply now_buffer_blind|]. intros ts.
  apply buffer_blind_bind; [apply yield_buffer_blind|]. intros ?.
  apply buffer_blind_bind; [apply get_messages_buffer_blind|]. intros ?.
  apply buffer_reset_bind, tool_events_clear_buffer_reset.
Qed.

(** X7: events left in the buffer before a turn never reach the client: the
    outcome of [post_chat], what it sends and what it stores are the same
    whatever the buffer held, and after a completed turn the whole process
    state is the same. *)
Theorem post_chat_ignores_stale_tool_events
        (E : Env) (prompt : str) (run : AgentRun) (d : option nat) (w : World)
        (stale : list ChatMessage) :
  fst (post_chat E prompt run d (set_tool_events stale w)) = fst (post_chat E prompt run d w) /\
  set_tool_events [] (snd (post_chat E prompt run d (set_tool_events stale w)))
  = set_tool_events [] (snd (post_chat E prompt run d w)) /\
  (forall r, fst (post_chat E prompt run d w) = Ret r ->
             snd (post_chat E prompt run d (set_tool_events stale w))
             = snd (post_chat E prompt run d w)).
Proof.
  assert (Hs : same_but_buffer (connected d (set_tool_events stale w)) (connected d w))
    by reflexivity.
  destruct (stream_messages_buffer_reset E prompt run Hs) as (Hf & Hw & Heq).
  unfold post_chat. fold (connected d (set_tool_events stale w)). fold (connected d w).
  destruct d as [[|k]|].
  - split; [reflexivity|]. split; [reflexivity|]. discriminate.
  - split; [exact Hf|]. split; [exact Hw|]. intros r Hr. apply (Heq r). congruence.
  - split; [exact Hf|]. split; [exact Hw|]. intros r Hr. apply (Heq r). congruence.
Qed.

Lemma triple_trivial {A} (m : M World A) :
  triple (fun _ => True) m (fun _ _ => True) (fun _ _ => True).
Proof. intros w _. destruct (m w) as [[a|e] w']; exact I. Qed.

Lemma flush_empties_buffer :
  triple (fun _ => True) flush_tool_events
         (fun _ w => _tool_events w = []) (fun _ _ => True).
Proof.
  intros w _. unfold flush_tool_events, bind, gets, tool_events_clear, modify.
  destruct (for_each (_tool_events w) yield_ w) as [[[]|e] w']; simpl; auto.
Qed.

(** X8: a turn that completes leaves the buffer empty. *)
Theorem completed_turn_leaves_buffer_empty
        (E : Env) (prompt : str) (run : AgentRun) (d : option nat) (w : World) (r : unit) :
  fst (post_chat E prompt run d w) = Ret r ->
  _tool_events (snd (post_chat E prompt run d w)) = [].
Proof.
  assert (H : triple (fun _ => True) (stream_messages E prompt run)
                     (fun _ w' => _tool_events w' = []) (fun _ _ => True)).
  { unfold stream_messages.
    eapply triple_bind; [apply triple_trivial|]. intros ts.
    eapply triple_bind; [apply triple_trivial|]. intros ?.
    eapply triple_bind; [apply triple_trivial|]. intros ?.
    eapply triple_bind; [apply triple_trivial|]. intros ?.
    eapply triple_bind; [apply triple_trivial|]. intros ?.
    destruct (ending run) as [blob|e].
    - eapply triple_bind; [apply flush_empties_buffer|]. intros ? w' Hb. exact Hb.
    - intros w' _. exact I. }
  unfold post_chat. destruct d as [[|k]|]; try discriminate;
    match goal with
    | |- context [stream_messages E prompt run ?w0] =>
        specialize (H w0 I); destruct (stream_messages E prompt run w0) as [[[]|e] w']
    end; simpl; try discriminate; intros _; exact H.
Qed.

Lemma completed_turn_leaves_buffer_empty_witness :
  fst (post_chat machine (lit "read it")
         {| steps := [ToolCall (lit "/sandbox/notes.txt"); TextFragment (lit "ok") 3;
                      ToolCall (lit "/etc/passwd")];
            ending := AgentReturns [] |} None confined) = Ret tt /\
  _tool_events
    (snd (post_chat machine (lit "read it")
            {| steps := [ToolCall (lit "/sandbox/notes.txt"); TextFragment (lit "ok") 3;
                         ToolCall (lit "/etc/passwd")];
               ending := AgentReturns [] |} None confined)) = [].
Proof.
  assert (H : fst (post_chat machine (lit "read it")
         {| steps := [ToolCall (lit "/sandbox/notes.txt"); TextFragment (lit "ok") 3;
                      ToolCall (lit "/etc/passwd")];
            ending := AgentReturns [] |} None confined) = Ret tt)
    by (vm_compute; reflexivity).
  split; [exact H|].
  exact (completed_turn_leaves_buffer_empty _ _ _ _ _ H).
Defined.

(** ** cli.py *)

Lemma fold_allow_read (sps : list str) (caps : CapabilitySet) :
  fold_left (fun caps sp => allow_path caps sp READ) sps caps
  = caps ++ map (fun sp => (sp, READ)) sps.
Proof.
  revert caps. induction sps as [|sp sps IH]; intros caps; simpl.
  - now rewrite app_nil_r.
  - rewrite IH. unfold allow_path. rewrite <- app_assoc. reflexivity.
Qed.

Lemma read_only_not_writable (sps : list str) :
  filter (fun entry : str * AccessMode =>
            match snd entry with READ_WRITE => true | READ => false end)
         (map (fun sp => (sp, READ)) sps) = [].
Proof. induction sps as [|sp sps IH]; simpl; auto. Qed.

(** X9: the capability set [_apply_sandbox] builds: the application
    directory and [/tmp] for reading and writing, then read access to the
    Python prefix, each site-packages directory, the interpreter's prefix,
    the working directory and [/etc], and [/var/run] for reading and
    writing. Write access is given to exactly three paths, whatever the
    environment, and [/etc] is readable. *)
Theorem sandbox_caps_entries (E : Env) :
  sandbox_caps E
  = [(APP_DIR E, READ_WRITE); (lit "/tmp", READ_WRITE); (python_prefix E, READ)]
    ++ map (fun sp => (sp, READ)) (site_packages E)
    ++ [(executable_prefix E, READ); (cwd E, READ); (lit "/etc", READ);
        (lit "/var/run", READ_WRITE)] /\
  writable (sandbox_caps E) = [APP_DIR E; lit "/tmp"; lit "/var/run"] /\
  List.length (sandbox_caps E) = 7 + List.length (site_packages E).
Proof.
  assert (H : sandbox_caps E
              = [(APP_DIR E, READ_WRITE); (lit "/tmp", READ_WRITE); (python_prefix E, READ)]
                ++ map (fun sp => (sp, READ)) (site_packages E)
                ++ [(executable_prefix E, READ); (cwd E, READ); (lit "/etc", READ);
                    (lit "/var/run", READ_WRITE)]).
  { unfold sandbox_caps. cbv zeta. rewrite fold_allow_read. unfold allow_path.
    rewrite <- !app_assoc. reflexivity. }
  split; [exact H|]. rewrite H. split.
  - unfold writable. rewrite !filter_app, read_only_not_writable. reflexivity.
  - rewrite !length_app, length_map. simpl. lia.
Qed.

(** X10: [serve --no-sandbox] never calls [apply]: it prints the start line,
    runs the server, and the sandbox state stays as it was through every
    request. *)
Theorem serve_no_sandbox_never_applies
        (E : Env) (host : str) (port : nat) (reload : bool) (workers : nat)
        (traffic : list Request) (w : World) :
  exists served,
    fst (serve E host port reload workers true traffic w) = Ret tt /\
    w_trace (snd (serve E host port reload workers true traffic w))
    = w_trace w ++ [ActEcho (banner host port); ActUvicornRun] ++ served /\
    existsb is_apply served = false /\
    w_sandbox (snd (serve E host port reload workers true traffic w)) = w_sandbox w.
Proof.
  rewrite serve_unfold. simpl.
  destruct (serve_requests_confined E traffic
              (record ActUvicornRun (record (ActEcho (banner host port)) w)))
    as [Hr [Hs (served & Ht & Hn)]].
  exists served. split; [exact Hr|]. split; [|split; [exact Hn|exact Hs]].
  rewrite Ht. simpl. rewrite <- !app_assoc. reflexivity.
Qed.

(** ** The store across restarts and [clear_history] *)












(** [clear_history] deletes only when confirmed and when the table exists;
    [_connect] is idempotent and keeps an existing table. *)
Lemma clear_history_only_deletes_when_confirmed_and_present (f : DbFile) :
  clear_history false f = (Aborted, f) /\
  clear_history true NoFile = (Echoed (lit "No chat history found."), NoFile) /\
  snd (clear_history true NoTable) = NoTable /\
  (forall t, snd (clear_history true (HasTable t)) = HasTable (delete_all t)) /\
  _connect (_connect f) = _connect f /\
  (forall t, f = HasTable t -> _connect f = f).
Proof.
  repeat split; try reflexivity.
  - destruct f; reflexivity.
  - intros t ->. reflexivity.
Qed.
